(** * check_live.js: roster loading, token cache, batched live check, snapshot

    A shallow embedding of [src/check_live.js] and the proofs of its
    specification.

    Modelling conventions.
    - A JavaScript string is a sequence of code units.  The model covers the
      code units 0..255 (Latin-1), for which a Rocq [string] is exactly such a
      sequence; on that range [trim] and [toLowerCase] act character by
      character as ECMAScript defines them.
    - A JavaScript number is modelled by an integer ([Z]); this is exact for
      the integers whose magnitude stays below 2^53, which covers epoch
      milliseconds and token lifetimes.  [NaN], the result of arithmetic on a
      missing field, is kept apart in the type [number].
    - Values read from the spreadsheet, from JSON bodies and from the object
      literals of the program are terms of one type [value]; an object is the
      list of its properties in insertion order.
    - Library and host functions whose result the program only passes along
      ([JSON.stringify], [JSON.parse], [encodeURIComponent],
      [Date.prototype.toISOString], the string-to-number conversion) and the
      outside world (HTTP replies, the clock, the environment variables, the
      parsed spreadsheet, the writes that fail) are the fields of the class
      [Host].
    - [async] functions run to completion one after the other, as the single
      pass of [main] awaits each of them: a computation takes the state of
      the run and gives back a result or a thrown exception, and the new
      state.
    - A console line is recorded without the pictograph that opens it in the
      source, which lies outside the modelled character range. *)

From Stdlib Require Import String Ascii List ZArith Bool Arith Lia.
From Stdlib Require Import DecimalString.
From Equations Require Import Equations.
Import ListNotations.
Open Scope string_scope.

(** ** Strings *)

(** Code units in Latin-1 that [String.prototype.trim] strips: the white
    space characters TAB, VT, FF, SP, NBSP and the line terminators LF, CR. *)
Definition isWhiteSpace (c : ascii) : bool :=
  let n := nat_of_ascii c in
  (((9 <=? n) && (n <=? 13)) || (n =? 32) || (n =? 160))%nat.

Fixpoint trimStart (s : string) : string :=
  match s with
  | EmptyString => EmptyString
  | String c r => if isWhiteSpace c then trimStart r else s
  end.

Fixpoint trimEnd (s : string) : string :=
  match s with
  | EmptyString => EmptyString
  | String c r =>
      match trimEnd r with
      | EmptyString => if isWhiteSpace c then EmptyString else String c EmptyString
      | r' => String c r'
      end
  end.

(** [s.trim()] *)
Definition trim (s : string) : string := trimEnd (trimStart s).

(** Lower-case mapping of one Latin-1 code unit: A-Z and the accented
    capitals U+00C0..U+00DE (except the multiplication sign U+00D7) move up
    by 32; everything else is unchanged. *)
Definition lowerChar (c : ascii) : ascii :=
  let n := nat_of_ascii c in
  if (((65 <=? n) && (n <=? 90))
      || ((192 <=? n) && (n <=? 222) && negb (n =? 215)))%nat
  then ascii_of_nat (n + 32) else c.

(** [s.toLowerCase()] *)
Fixpoint toLowerCase (s : string) : string :=
  match s with
  | EmptyString => EmptyString
  | String c r => String (lowerChar c) (toLowerCase r)
  end.

(** Truthiness of a string: non-empty. *)
Definition nonEmpty (s : string) : bool :=
  match s with EmptyString => false | String _ _ => true end.

(** [parts.join(sep)] *)
Fixpoint join (sep : string) (parts : list string) : string :=
  match parts with
  | [] => ""
  | [p] => p
  | p :: ps => p ++ sep ++ join sep ps
  end.

(** ** Values *)

#[warnings="-register-all"]
Inductive value : Type :=
| VUndefined
| VNull
| VBool (b : bool)
| VNum (z : Z)
| VStr (s : string)
| VArr (elems : list value)
| VObj (props : list (string * value)).

(** The result of numeric operators: an integer or [NaN]. *)
Inductive number : Type :=
| Num (z : Z)
| NaN.

(** ToBoolean: [undefined], [null], [false], [0] and [""] are falsy. *)
Definition truthy (v : value) : bool :=
  match v with
  | VUndefined | VNull => false
  | VBool b => b
  | VNum z => negb (z =? 0)%Z
  | VStr s => nonEmpty s
  | VArr _ | VObj _ => true
  end.

(** [a || b] *)
Definition or_else (a b : value) : value := if truthy a then a else b.

(** Number::toString for an integer: its decimal digits.  This is what
    the language prints for a safe integer (up to 2^53 in magnitude); larger
    numbers print rounded or in exponent form, and a statement that names the
    digits printed bounds the number. *)
Definition NumberToString (z : Z) : string := NilZero.string_of_int (Z.to_int z).

(** ToString, also what [.toString()] gives on every value that has the
    method (all but [undefined] and [null]).  An array prints its elements
    joined by commas, [undefined] and [null] elements as nothing. *)
Fixpoint ToString (v : value) : string :=
  match v with
  | VUndefined => "undefined"
  | VNull => "null"
  | VBool true => "true"
  | VBool false => "false"
  | VNum z => NumberToString z
  | VStr s => s
  | VArr elems =>
      join "," (map (fun e => match e with
                              | VUndefined | VNull => ""
                              | _ => ToString e
                              end) elems)
  | VObj _ => "[object Object]"
  end.

(** [row[k]]: reading past the end of an array gives [undefined]. *)
Definition index (row : list value) (k : nat) : value := nth k row VUndefined.

(** ** Roster Loader: [loadUsernames], lines 43-57 *)

Definition sheet : Type := list (list value).

(** Column A of a row as line 50 computes it.  The receiver of
    [.toString()] is truthy or [""], never [undefined] or [null]. *)
Definition username_of (row : list value) : string :=
  trim (ToString (or_else (index row 0) (VStr ""))).

(** Column E of a row as line 51 computes it. *)
Definition recent_of (row : list value) : string :=
  toLowerCase (trim (ToString (or_else (index row 4) (VStr "")))).

(** The [for] loop of lines 49-55, from row [i] on, [names] being the array
    built so far. *)
Equations? loadUsernames_loop (rows : sheet) (i : nat) (names : list string)
  : list string by wf (length rows - i) lt :=
  loadUsernames_loop rows i names with lt_dec i (length rows) := {
    | left _ =>
        let username := username_of (nth i rows []) in
        let recent := recent_of (nth i rows []) in
        loadUsernames_loop rows (i + 1)
          (if nonEmpty username && nonEmpty recent
              && negb (recent =? "no") && negb (recent =? "false")
           then names ++ [username] else names)
    | right _ => names }.
Proof. lia. Qed.

(** [loadUsernames()], given the rows that [XLSX.utils.sheet_to_json]
    returned for the first sheet (line 46). *)
Definition loadUsernames (rows : sheet) : list string :=
  loadUsernames_loop rows 1 [].

(** ** Exceptions *)

Inductive exn : Type :=
| Error (message : string)
| TypeError (message : string).

Definition message_of (e : exn) : string :=
  match e with Error m | TypeError m => m end.

Inductive result (A : Type) : Type :=
| Ok (a : A)
| Throw (e : exn).
Arguments Ok {A} a.
Arguments Throw {A} e.

(** ** Objects *)

Fixpoint lookup (k : string) (props : list (string * value)) : value :=
  match props with
  | [] => VUndefined
  | (k', v) :: rest => if k =? k' then v else lookup k rest
  end.

(** [v.k] for the property names the program reads, none of which is defined
    on a string, number, boolean or array: reading from [undefined] or
    [null] throws, reading from an object looks the property up, reading
    from anything else gives [undefined]. *)
Definition get (v : value) (k : string) : result value :=
  match v with
  | VUndefined | VNull =>
      Throw (TypeError ("Cannot read properties of " ++ ToString v
                        ++ " (reading '" ++ k ++ "')"))
  | VObj props => Ok (lookup k props)
  | _ => Ok VUndefined
  end.

(** [for (const s of v)]: the elements an iteration visits.  An array yields
    its elements, a string its characters; nothing else the program can hold
    is iterable. *)
Definition iterate (v : value) : result (list value) :=
  match v with
  | VArr elems => Ok elems
  | VStr s => Ok (map (fun c => VStr (String c EmptyString)) (list_ascii_of_string s))
  | _ => Throw (TypeError (ToString v ++ " is not iterable"))
  end.

(** [names.slice(a, b)] for [0 <= a <= b]. *)
Definition slice {A : Type} (l : list A) (a b : nat) : list A :=
  firstn (b - a) (skipn a l).

(** ** Numbers *)

(** The integers on which the arithmetic of JavaScript numbers (binary64) is
    exact: every integer between [-2^53] and [2^53] is a number, and an
    operation whose operands and exact result are such integers returns that
    result. *)
Definition safe_integer (z : Z) : Prop := (- 2 ^ 53 <= z <= 2 ^ 53)%Z.

(** [a * b], [a + b] and [a - b] on integers, without rounding: they are
    the operators of the language where operands and result are safe
    integers, and a statement that names the number computed says so in
    its hypotheses. *)
Definition nmul (a b : number) : number :=
  match a, b with Num x, Num y => Num (x * y) | _, _ => NaN end.
Definition nadd (a b : number) : number :=
  match a, b with Num x, Num y => Num (x + y) | _, _ => NaN end.
Definition nsub (a b : number) : number :=
  match a, b with Num x, Num y => Num (x - y) | _, _ => NaN end.
(** [a < b]: false as soon as one side is [NaN]. *)
Definition nlt (a b : number) : bool :=
  match a, b with Num x, Num y => (x <? y)%Z | _, _ => false end.

(** ** The host: library functions and the outside world *)

Record Request : Type := mkRequest {
  url : string;
  method : string;
  headers : list (string * value) }.

Class Host : Type := {
  (** ToNumber on a string *)
  StringToNumber : string -> number;
  (** [JSON.stringify(v)] *)
  JSON_stringify : value -> string;
  (** [JSON.stringify(v, null, 2)] *)
  JSON_stringify_indent : value -> string;
  (** [JSON.parse(text)] *)
  JSON_parse : string -> result value;
  encodeURIComponent : string -> string;
  (** [new Date(t).toISOString()] *)
  toISOString : Z -> string;
  (** [process.env] *)
  process_env : string -> option string;
  (** how [fs.writeFileSync(name, text)] fails on a disk: [None] when it
      succeeds; [Some (e, remains)] when it throws [e], [remains] being what
      the file then holds (its old content, a truncated one, or no file) *)
  write_failure : (string -> option string) -> string -> string
                  -> option (exn * option string);
  (** the rows of the first sheet of a workbook file, lines 44-46 *)
  XLSX_rows : string -> result sheet;
  (** the parsed JSON body that answers a request, given the requests sent
      before it: [await fetch(...)] followed by [await res.json()]; or the
      exception with which one of the two rejects *)
  reply : list Request -> Request -> result value;
  (** the successive readings of the clock, in epoch milliseconds *)
  clock : nat -> Z }.

(** ** The state of a run *)

Record TokenCache : Type := mkTokenCache {
  token : value;
  expiry : number }.

Inductive level : Type := Log | Warn | Err.

Record World : Type := mkWorld {
  (** the module variable [CONFIG] *)
  CONFIG : value;
  (** the module variable [tokenCache] *)
  tokenCache : TokenCache;
  (** how many times the clock was read *)
  ticks : nat;
  (** the requests sent so far, oldest first *)
  requests : list Request;
  (** the files on disk *)
  files : string -> option string;
  (** what was printed, oldest first *)
  console : list (level * string);
  (** [process.exitCode] *)
  exitCode : option Z }.

Definition set_CONFIG (c : value) (w : World) : World :=
  mkWorld c (tokenCache w) (ticks w) (requests w) (files w) (console w) (exitCode w).
Definition set_tokenCache (c : TokenCache) (w : World) : World :=
  mkWorld (CONFIG w) c (ticks w) (requests w) (files w) (console w) (exitCode w).
Definition set_ticks (n : nat) (w : World) : World :=
  mkWorld (CONFIG w) (tokenCache w) n (requests w) (files w) (console w) (exitCode w).
Definition set_requests (r : list Request) (w : World) : World :=
  mkWorld (CONFIG w) (tokenCache w) (ticks w) r (files w) (console w) (exitCode w).
Definition set_files (f : string -> option string) (w : World) : World :=
  mkWorld (CONFIG w) (tokenCache w) (ticks w) (requests w) f (console w) (exitCode w).
Definition set_console (c : list (level * string)) (w : World) : World :=
  mkWorld (CONFIG w) (tokenCache w) (ticks w) (requests w) (files w) c (exitCode w).
Definition set_exitCode (c : option Z) (w : World) : World :=
  mkWorld (CONFIG w) (tokenCache w) (ticks w) (requests w) (files w) (console w) c.

(** ** Computations: state and exceptions *)

Definition M (A : Type) : Type := World -> result A * World.

Definition ret {A : Type} (a : A) : M A := fun w => (Ok a, w).

Definition bind {A B : Type} (m : M A) (k : A -> M B) : M B :=
  fun w => match m w with
           | (Ok a, w') => k a w'
           | (Throw e, w') => (Throw e, w')
           end.

Definition throw {A : Type} (e : exn) : M A := fun w => (Throw e, w).

(** the outcome of a pure step that may throw *)
Definition lift {A : Type} (r : result A) : M A := fun w => (r, w).

(** [try { m } catch (err) { h err }]: what [m] did before it threw stays done. *)
Definition try_catch {A : Type} (m : M A) (h : exn -> M A) : M A :=
  fun w => match m w with
           | (Ok a, w') => (Ok a, w')
           | (Throw e, w') => h e w'
           end.

Definition modify (f : World -> World) : M unit := fun w => (Ok tt, f w).
Definition read {A : Type} (f : World -> A) : M A := fun w => (Ok (f w), w).

Declare Scope js_scope.
Delimit Scope js_scope with js.
Notation "x <- m ;; k" := (bind m (fun x => k))
  (at level 61, m at next level, right associativity) : js_scope.
Notation "m ;; k" := (bind m (fun _ => k))
  (at level 61, right associativity) : js_scope.

(** ** The program *)

Definition EXCEL_FILE : string := "streamers.xlsx".
Definition OUTPUT_FILE : string := "live.json".

Section Program.
Context {host : Host}.
Open Scope js_scope.

(** ToNumber *)
Definition ToNumber (v : value) : number :=
  match v with
  | VUndefined => NaN
  | VNull => Num 0
  | VBool b => Num (if b then 1 else 0)
  | VNum z => Num z
  | VStr s => StringToNumber s
  | VArr _ => StringToNumber (ToString v)
  | VObj _ => NaN
  end.

(** [Date.now()], and the time that [new Date()] captures *)
Definition Date_now : M Z :=
  fun w => (Ok (clock (ticks w)), set_ticks (S (ticks w)) w).

(** [await fetch(url, options)] followed by [await res.json()] *)
Definition fetch_json (req : Request) : M value :=
  fun w => (reply (requests w) req, set_requests (requests w ++ [req]) w).

Definition console_print (l : level) (line : string) : M unit :=
  modify (fun w => set_console (console w ++ [(l, line)]) w).

(** [fs.readFileSync(name, "utf8")] *)
Definition readFileSync (name : string) : M string :=
  fun w => match files w name with
           | Some text => (Ok text, w)
           | None => (Throw (Error ("ENOENT: no such file or directory, open '"
                                    ++ name ++ "'")), w)
           end.

(** [fs.writeFileSync(name, text)]: the file now holds [text], or the call
    throws and the file holds what the failed write left. *)
Definition writeFileSync (name text : string) : M unit :=
  fun w =>
    match write_failure (files w) name text with
    | None =>
        (Ok tt, set_files (fun n => if n =? name then Some text else files w n) w)
    | Some (e, remains) =>
        (Throw e, set_files (fun n => if n =? name then remains else files w n) w)
    end.

(** *** Config Resolver, lines 10-22 *)

Definition env_value (name : string) : value :=
  match process_env name with Some s => VStr s | None => VUndefined end.

Definition init_CONFIG : M unit :=
  modify (set_CONFIG (VObj [("twitch_client_id", VStr "");
                            ("twitch_client_secret", VStr "")])) ;;
  try_catch
    (if truthy (env_value "TWITCH_CLIENT_ID")
        && truthy (env_value "TWITCH_CLIENT_SECRET")
     then
       modify (set_CONFIG (VObj [("twitch_client_id", env_value "TWITCH_CLIENT_ID");
                                 ("twitch_client_secret",
                                  env_value "TWITCH_CLIENT_SECRET")]))
     else
       text <- readFileSync "config.json" ;;
       parsed <- lift (JSON_parse text) ;;
       modify (set_CONFIG parsed))
    (fun _ =>
       console_print Warn
         "No config.json found and env vars missing; Twitch auth may fail.").

(** *** Token Cache: [getToken], lines 27-40 *)

(** The request of lines 31-32. *)
Definition token_request (client_id client_secret : value) : Request :=
  mkRequest ("https://id.twitch.tv/oauth2/token?client_id=" ++ ToString client_id
             ++ "&client_secret=" ++ ToString client_secret
             ++ "&grant_type=client_credentials")
            "POST" [].

Definition getToken : M value :=
  now <- Date_now ;;
  cache <- read tokenCache ;;
  if truthy (token cache) && nlt (Num now) (expiry cache) then ret (token cache)
  else
    config <- read CONFIG ;;
    client_id <- lift (get config "twitch_client_id") ;;
    client_secret <- lift (get config "twitch_client_secret") ;;
    data <- fetch_json (token_request client_id client_secret) ;;
    access_token <- lift (get data "access_token") ;;
    if negb (truthy access_token)
    then throw (Error ("Failed to fetch Twitch token: " ++ JSON_stringify data))
    else
      modify (fun w => set_tokenCache
                         (mkTokenCache access_token (expiry (tokenCache w))) w) ;;
      expires_in <- lift (get data "expires_in") ;;
      modify (fun w => set_tokenCache
                         (mkTokenCache
                            (token (tokenCache w))
                            (nsub (nadd (Num now)
                                        (nmul (ToNumber expires_in) (Num 1000)))
                                  (Num 60000))) w) ;;
      console_print Log "Refreshed Twitch token" ;;
      read (fun w => token (tokenCache w)).

(** *** Live-Status Checker: [checkLive], lines 60-86 *)

(** The object pushed at lines 76-81 for the entry [s]. *)
Definition live_record (s : value) : result value :=
  match get s "user_name", get s "title", get s "game_name", get s "started_at" with
  | Ok user_name, Ok title, Ok game_name, Ok started_at =>
      Ok (VObj [("username", user_name);
                ("title", or_else title (VStr ""));
                ("game", or_else game_name (VStr ""));
                ("started_at", started_at)])
  | Throw e, _, _, _ | _, Throw e, _, _ | _, _, Throw e, _ | _, _, _, Throw e => Throw e
  end.

(** The inner loop of lines 75-82 over the entries it visits. *)
Fixpoint push_streams (entries : list value) (liveUsers : list value)
  : result (list value) :=
  match entries with
  | [] => Ok liveUsers
  | s :: rest =>
      match live_record s with
      | Ok r => push_streams rest (liveUsers ++ [r])
      | Throw e => Throw e
      end
  end.

(** Lines 74-83: what one parsed body adds to [liveUsers]. *)
Definition collect (data : value) (liveUsers : list value) : result (list value) :=
  match get data "data" with
  | Ok d =>
      if truthy d then
        match iterate d with
        | Ok entries => push_streams entries liveUsers
        | Throw e => Throw e
        end
      else Ok liveUsers
  | Throw e => Throw e
  end.

(** The request of lines 70-71 for one batch. *)
Definition streams_request (hdrs : list (string * value)) (batch : list string)
  : Request :=
  mkRequest ("https://api.twitch.tv/helix/streams?"
             ++ join "&" (map (fun n => "user_login=" ++ encodeURIComponent n) batch))
            "GET" hdrs.

(** The [for] loop of lines 68-84 from index [i] on. *)
Equations? checkLive_loop (names : list string) (hdrs : list (string * value))
  (i : nat) (liveUsers : list value) (w : World)
  : result (list value) * World by wf (length names - i) lt :=
  checkLive_loop names hdrs i liveUsers w with lt_dec i (length names) := {
    | left _ =>
        let batch := slice names i (i + 100) in
        match fetch_json (streams_request hdrs batch) w with
        | (Ok data, w') =>
            match collect data liveUsers with
            | Ok liveUsers' => checkLive_loop names hdrs (i + 100) liveUsers' w'
            | Throw e => (Throw e, w')
            end
        | (Throw e, w') => (Throw e, w')
        end
    | right _ => (Ok liveUsers, w) }.
Proof. lia. Qed.

(** The headers of lines 62-65. *)
Definition stream_headers (client_id tok : value) : list (string * value) :=
  [("Client-ID", client_id); ("Authorization", VStr ("Bearer " ++ ToString tok))].

Definition checkLive (names : list string) : M (list value) :=
  tok <- getToken ;;
  config <- read CONFIG ;;
  client_id <- lift (get config "twitch_client_id") ;;
  checkLive_loop names (stream_headers client_id tok) 0 [].

(** *** Snapshot Writer: [writeJSON], lines 88-96 *)

Definition snapshot (timestamp : string) (liveList : list value) : value :=
  VObj [("timestamp", VStr timestamp); ("live", VArr liveList)].

Definition writeJSON (liveList : list value) : M value :=
  t <- Date_now ;;
  let out := snapshot (toISOString t) liveList in
  writeFileSync OUTPUT_FILE (JSON_stringify_indent out) ;;
  console_print Log ("Wrote " ++ OUTPUT_FILE ++ " ("
                     ++ NumberToString (Z.of_nat (length liveList)) ++ " live)") ;;
  ret out.

(** *** [main], lines 99-112 *)

Definition main : M unit :=
  try_catch
    (rows <- lift (XLSX_rows EXCEL_FILE) ;;
     let names := loadUsernames rows in
     if (length names =? 0)%nat
     then console_print Warn "No valid streamers found in spreadsheet"
     else
       liveList <- checkLive names ;;
       _ <- writeJSON liveList ;;
       ret tt)
    (fun err =>
       console_print Err ("Error: " ++ message_of err) ;;
       modify (set_exitCode (Some 1%Z))).

End Program.

(** ** The roster as the specification words it *)

(** Column A coerced to a trimmed string. *)
Definition identifier (row : list value) : string :=
  trim (ToString (or_else (index row 0) (VStr ""))).

(** Column E coerced to a trimmed string. *)
Definition flag (row : list value) : string :=
  trim (ToString (or_else (index row 4) (VStr ""))).

(** The inclusion rule of the specification. *)
Definition included (row : list value) : Prop :=
  identifier row <> "" /\ flag row <> ""
  /\ toLowerCase (flag row) <> "no" /\ toLowerCase (flag row) <> "false".

(** The test of line 52 on a row. *)
Definition includes (row : list value) : bool :=
  nonEmpty (username_of row) && nonEmpty (recent_of row)
  && negb (recent_of row =? "no") && negb (recent_of row =? "false").

(** The rows after the header. *)
Definition data_rows (rows : sheet) : sheet := skipn 1 rows.

(** [l1] is [l2] with some elements left out, the others in their order. *)
Inductive Subsequence {A : Type} : list A -> list A -> Prop :=
| sub_nil : Subsequence [] []
| sub_skip x l1 l2 : Subsequence l1 l2 -> Subsequence l1 (x :: l2)
| sub_keep x l1 l2 : Subsequence l1 l2 -> Subsequence (x :: l1) (x :: l2).

(** ** The batches and the records, as the specification words them *)

(** The successive values of [batch] (line 69) from index [i] on. *)
Equations? batches_from (names : list string) (i : nat)
  : list (list string) by wf (length names - i) lt :=
  batches_from names i with lt_dec i (length names) := {
    | left _ => slice names i (i + 100) :: batches_from names (i + 100)
    | right _ => [] }.
Proof. lia. Qed.

Definition batches (names : list string) : list (list string) :=
  batches_from names 0.

(** The property [k] of an entry or of a body, [undefined] when absent. *)
Definition prop (v : value) (k : string) : value :=
  match v with VObj props => lookup k props | _ => VUndefined end.

(** The LiveRecord of one entry of a data collection. *)
Definition record_of (s : value) : value :=
  VObj [("username", prop s "user_name");
        ("title", or_else (prop s "title") (VStr ""));
        ("game", or_else (prop s "game_name") (VStr ""));
        ("started_at", prop s "started_at")].

(** The LiveRecords of one body: those of its data collection, in its
    order, and none when there is no data collection. *)
Definition records_of (data : value) : list value :=
  match prop data "data" with
  | VArr entries => map record_of entries
  | _ => []
  end.

Definition nullish (v : value) : bool :=
  match v with VUndefined | VNull => true | _ => false end.

(** A parsed body the streams endpoint may answer with: a JSON value other
    than [null], whose [data] is absent or falsy, or is an array without
    [null] entries. *)
Definition streams_body (data : value) : Prop :=
  nullish data = false
  /\ (truthy (prop data "data") = false
      \/ exists entries, prop data "data" = VArr entries
                         /\ forallb (fun s => negb (nullish s)) entries = true).

(** A body without a data collection. *)
Definition no_data (data : value) : Prop :=
  nullish data = false /\ truthy (prop data "data") = false.

(** The credentials the program starts from (line 11). *)
Definition empty_credentials : value :=
  VObj [("twitch_client_id", VStr ""); ("twitch_client_secret", VStr "")].

(** The line that line 21 prints. *)
Definition config_warning : level * string :=
  (Warn, "No config.json found and env vars missing; Twitch auth may fail.").

(** A parsed configuration yields usable values: both fields are there and
    non-empty. *)
Definition usable_credentials (config : value) : bool :=
  truthy (prop config "twitch_client_id")
  && truthy (prop config "twitch_client_secret").

Section Replies.
Context {host : Host}.

(** The outcomes of sending [reqs] one after the other, [hist] being the
    requests sent before. *)
Fixpoint replies (hist : list Request) (reqs : list Request) : list (result value) :=
  match reqs with
  | [] => []
  | r :: rest => reply hist r :: replies (hist ++ [r]) rest
  end.

(** Both environment variables are set and non-empty (line 13). *)
Definition env_usable : bool :=
  truthy (env_value "TWITCH_CLIENT_ID") && truthy (env_value "TWITCH_CLIENT_SECRET").

(** No usable token is cached at the next reading of the clock. *)
Definition cache_miss (w : World) : Prop :=
  truthy (token (tokenCache w))
  && nlt (Num (clock (ticks w))) (expiry (tokenCache w)) = false.

(** The world after a cache hit: only the clock was read. *)
Definition after_hit (w : World) : World := set_ticks (S (ticks w)) w.

(** The world after the credential exchange was sent. *)
Definition after_exchange (w : World) (req : Request) : World :=
  set_requests (requests w ++ [req]) (set_ticks (S (ticks w)) w).

(** The world after a successful refresh. *)
Definition after_refresh (w : World) (req : Request) (tok expires_in : value) : World :=
  mkWorld (CONFIG w)
          (mkTokenCache tok
             (nsub (nadd (Num (clock (ticks w)))
                         (nmul (ToNumber expires_in) (Num 1000)))
                   (Num 60000)))
          (S (ticks w)) (requests w ++ [req]) (files w)
          (console w ++ [(Log, "Refreshed Twitch token")]) (exitCode w).

End Replies.

(** ** Sample hosts, on which the theorems are exercised *)

(** The state in which the module starts to load: nothing sent, nothing
    printed, the token cache of line 24. *)
Definition initial_World (fs : string -> option string) : World :=
  mkWorld VUndefined (mkTokenCache VNull (Num 0)) 0 [] fs [] None.

Module Sample.

Definition row (name flag_cell : value) : list value :=
  [name; VNull; VNull; VNull; flag_cell].

Definition roster_sheet : sheet :=
  [ row (VStr "username") (VStr "recent");
    row (VStr "alice") (VStr "yes");
    row (VStr "bob") (VStr "no");
    row (VStr "carol") (VStr "") ].

Definition token_body : value :=
  VObj [("access_token", VStr "t0k3n"); ("expires_in", VNum 3600);
        ("token_type", VStr "bearer")].

Definition denied_body : value :=
  VObj [("status", VNum 400); ("message", VStr "invalid client")].

Definition alice_live : value :=
  VObj [("data",
         VArr [VObj [("user_name", VStr "alice"); ("title", VStr "Chess");
                     ("game_name", VStr "Chess.com");
                     ("started_at", VStr "2024-01-01T00:00:00Z")]])].

Definition untitled_live : value :=
  VObj [("data",
         VArr [VObj [("user_name", VStr "dave");
                     ("started_at", VStr "2024-01-01T00:05:00Z")]])].

Definition error_body : value :=
  VObj [("error", VStr "Unauthorized"); ("status", VNum 401)].

Definition env_set (name : string) : option string :=
  if name =? "TWITCH_CLIENT_ID" then Some "id"
  else if name =? "TWITCH_CLIENT_SECRET" then Some "secret"
  else None.

Definition env_unset (name : string) : option string := None.

(** A host that answers the credential exchange with [oauth] and the
    streams query sent after [n] earlier requests with [streams n].  Its
    [JSON.parse] knows the empty object only, and its printers are
    stand-ins. *)
Definition host_with (env : string -> option string) (rows : result sheet)
  (oauth : result value) (streams : nat -> result value) : Host :=
  {| StringToNumber := fun _ => NaN;
     JSON_stringify := fun v => "json:" ++ ToString v;
     JSON_stringify_indent := fun v => "json2:" ++ ToString v;
     JSON_parse := fun text => if text =? "{}" then Ok (VObj [])
                               else Throw (Error "Unexpected token");
     encodeURIComponent := fun s => s;
     toISOString := fun t => "T" ++ NumberToString t;
     process_env := env;
     write_failure := fun _ _ _ => None;
     XLSX_rows := fun _ => rows;
     reply := fun hist req => if method req =? "POST" then oauth
                              else streams (length hist);
     clock := fun n => (1700000000000 + 1000 * Z.of_nat n)%Z |}.

Definition no_files (name : string) : option string := None.

Definition empty_config_file (name : string) : option string :=
  if name =? "config.json" then Some "{}" else None.

(** The world once the module is loaded. *)
Definition loaded (h : Host) (fs : string -> option string) : World :=
  snd (@init_CONFIG h (initial_World fs)).

Definition many (n : nat) : list string := repeat "streamer" n.

(** The exchange is granted and alice is live. *)
Definition granting : Host :=
  host_with env_set (Ok roster_sheet) (Ok token_body) (fun _ => Ok alice_live).

(** The exchange is denied. *)
Definition denying : Host :=
  host_with env_set (Ok roster_sheet) (Ok denied_body) (fun _ => Ok alice_live).

(** The first streams query is answered by an error body, the later ones by
    an entry without title and game. *)
Definition degraded : Host :=
  host_with env_set (Ok roster_sheet) (Ok token_body)
            (fun n => if (n =? 1)%nat then Ok error_body else Ok untitled_live).

(** The first streams query is answered by the JSON body [null]. *)
Definition null_first : Host :=
  host_with env_set (Ok roster_sheet) (Ok token_body)
            (fun n => if (n =? 1)%nat then Ok VNull else Ok alice_live).

(** The first streams query is answered by an empty body, on which
    [res.json()] rejects. *)
Definition empty_first : Host :=
  host_with env_set (Ok roster_sheet) (Ok token_body)
            (fun n => if (n =? 1)%nat
                      then Throw (Error "invalid json response body: Unexpected end of JSON input")
                      else Ok alice_live).

(** No environment variable is set. *)
Definition unconfigured : Host :=
  host_with env_unset (Ok roster_sheet) (Ok token_body) (fun _ => Ok alice_live).

(** The host [h] with writes that fail as [f] says. *)
Definition with_write_failure (h : Host)
  (f : (string -> option string) -> string -> string -> option (exn * option string))
  : Host :=
  {| StringToNumber := @StringToNumber h;
     JSON_stringify := @JSON_stringify h;
     JSON_stringify_indent := @JSON_stringify_indent h;
     JSON_parse := @JSON_parse h;
     encodeURIComponent := @encodeURIComponent h;
     toISOString := @toISOString h;
     process_env := @process_env h;
     write_failure := f;
     XLSX_rows := @XLSX_rows h;
     reply := @reply h;
     clock := @clock h |}.

(** The disk is full: a write throws and leaves the file empty. *)
Definition full_disk : Host :=
  with_write_failure granting
    (fun _ _ _ => Some (Error "ENOSPC: no space left on device, write", Some "")).


(** A disk that holds an earlier snapshot. *)
Definition old_snapshot (name : string) : option string :=
  if name =? "live.json" then Some "earlier" else None.

(** A sheet that has its header row only. *)
Definition header_only : sheet := [ row (VStr "username") (VStr "recent") ].

(** The workbook cannot be read. *)
Definition sheetless : Host :=
  host_with env_set
            (Throw (Error "ENOENT: no such file or directory, open 'streamers.xlsx'"))
            (Ok token_body) (fun _ => Ok alice_live).

(** The sheet lists nobody. *)
Definition nobody : Host :=
  host_with env_set (Ok header_only) (Ok token_body) (fun _ => Ok alice_live).

(** The exchange grants a token without saying how long it lives. *)
Definition no_lifetime : Host :=
  host_with env_set (Ok roster_sheet) (Ok (VObj [("access_token", VStr "t0k3n")]))
            (fun _ => Ok alice_live).

(** The exchange grants a token that lives 30 seconds. *)
Definition short_lived : Host :=
  host_with env_set (Ok roster_sheet)
            (Ok (VObj [("access_token", VStr "t0k3n"); ("expires_in", VNum 30)]))
            (fun _ => Ok alice_live).

End Sample.

(** ** Reading a request back *)

(** What follows the first [c] in [s]; nothing when [s] has no [c]. *)
Fixpoint after_char (c : ascii) (s : string) : string :=
  match s with
  | EmptyString => EmptyString
  | String a r => if Ascii.eqb a c then r else after_char c r
  end.

(** [s.split(c)] *)
Fixpoint split_on (c : ascii) (s : string) : list string :=
  match s with
  | EmptyString => [EmptyString]
  | String a r =>
      if Ascii.eqb a c then EmptyString :: split_on c r
      else match split_on c r with
           | piece :: pieces => String a piece :: pieces
           | [] => [String a EmptyString]
           end
  end.

(** [c] occurs in [s]. *)
Definition has_char (c : ascii) (s : string) : bool :=
  existsb (Ascii.eqb c) (list_ascii_of_string s).

(** The parameters of the query string of a URL, in order: the pieces
    between the ampersands of what follows the question mark. *)
Definition query_parameters (u : string) : list string :=
  let query := after_char "?" u in
  if nonEmpty query then split_on "&" query else [].

(** The number of identifiers a streams query asks about. *)
Definition request_size (req : Request) : nat :=
  length (query_parameters (url req)).

(** The expiry [now + n * 1000 - 60000] is computed without rounding: the
    operands and the result of each of the three operations are safe
    integers. *)
Definition expiry_is_exact (now n : Z) : Prop :=
  safe_integer now /\ safe_integer n /\ safe_integer (n * 1000)
  /\ safe_integer (now + n * 1000)
  /\ safe_integer (now + n * 1000 - 60000).

(** ** Notions used by the further properties *)

(** A title or a game as lines 78 and 79 leave it: the empty string, or the
    truthy value the entry had. *)
Definition defaulted (v : value) : Prop := v = VStr "" \/ truthy v = true.

(** The shape of the object pushed at lines 76-81. *)
Definition record_shape (r : value) : Prop :=
  exists user_name title game started_at,
    r = VObj [("username", user_name); ("title", title); ("game", game);
              ("started_at", started_at)]
    /\ defaulted title /\ defaulted game.

(** The world in which the [catch] block of [main] (lines 108-111) leaves a
    run that threw [e] in the world [w]. *)
Definition failed_run (w : World) (e : exn) : World :=
  set_exitCode (Some 1%Z)
    (set_console (console w ++ [(Err, "Error: " ++ message_of e)]) w).

(** The world in which lines 102-105 leave a run whose roster is empty. *)
Definition skipped_run (w : World) : World :=
  set_console (console w ++ [(Warn, "No valid streamers found in spreadsheet")]) w.

Section Outcomes.
Context {host : Host}.

(** The world in which [writeJSON liveList] leaves the world [w]. *)
Definition written (w : World) (liveList : list value) : World :=
  set_console
    (console w
     ++ [(Log, "Wrote " ++ OUTPUT_FILE ++ " ("
               ++ NumberToString (Z.of_nat (length liveList)) ++ " live)")])
    (set_files
       (fun n => if n =? OUTPUT_FILE
                 then Some (JSON_stringify_indent
                              (snapshot (toISOString (clock (ticks w))) liveList))
                 else files w n)
       (set_ticks (S (ticks w)) w)).

(** The text that [writeJSON liveList] hands to the write in the world [w]. *)
Definition output_text (w : World) (liveList : list value) : string :=
  JSON_stringify_indent (snapshot (toISOString (clock (ticks w))) liveList).

(** The write of [writeJSON liveList] in the world [w] succeeds. *)
Definition writable (w : World) (liveList : list value) : Prop :=
  write_failure (files w) OUTPUT_FILE (output_text w liveList) = None.

(** The world in which [writeJSON] leaves the world [w] when its write
    throws, [remains] being what the output file then holds. *)
Definition write_failed (w : World) (remains : option string) : World :=
  set_files (fun n => if n =? OUTPUT_FILE then remains else files w n)
            (set_ticks (S (ticks w)) w).

End Outcomes.

(** Every character of [s] is one that [trim] strips. *)
Definition blank (s : string) : bool :=
  forallb isWhiteSpace (list_ascii_of_string s).

(** No character of [s] is one that [trim] strips. *)
Definition solid (s : string) : bool :=
  forallb (fun c => negb (isWhiteSpace c)) (list_ascii_of_string s).

(** * Proofs *)

(** ** Strings *)

Lemma nonEmpty_true (s : string) : nonEmpty s = true <-> s <> "".
Proof. destruct s; simpl; split; congruence. Qed.

Lemma toLowerCase_empty (s : string) : toLowerCase s = "" <-> s = "".
Proof. destruct s; simpl; split; congruence. Qed.

Lemma trimEnd_idempotent (s : string) : trimEnd (trimEnd s) = trimEnd s.
Proof.
  induction s as [|c r IH]; simpl; [reflexivity|].
  destruct (trimEnd r) as [|c' r'] eqn:E.
  - destruct (isWhiteSpace c) eqn:W; simpl; [reflexivity|]. now rewrite W.
  - change (trimEnd (String c (String c' r'))) with
      (match trimEnd (String c' r') with
       | EmptyString => if isWhiteSpace c then EmptyString else String c EmptyString
       | x => String c x end).
    now rewrite IH.
Qed.

Lemma trimStart_head (s : string) :
  match trimStart s with
  | EmptyString => True
  | String c _ => isWhiteSpace c = false
  end.
Proof.
  induction s as [|c r IH]; simpl; [exact I|].
  destruct (isWhiteSpace c) eqn:W; [exact IH | exact W].
Qed.

Lemma trimStart_trimEnd (s : string) :
  match s with EmptyString => True | String c _ => isWhiteSpace c = false end ->
  trimStart (trimEnd s) = trimEnd s.
Proof.
  destruct s as [|c r]; simpl; [reflexivity|]. intros W.
  destruct (trimEnd r); rewrite ?W; simpl; now rewrite W.
Qed.

Lemma trim_idempotent (s : string) : trim (trim s) = trim s.
Proof.
  unfold trim. rewrite (trimStart_trimEnd _ (trimStart_head s)).
  apply trimEnd_idempotent.
Qed.

(** ** Roster Loader *)

Lemma skipn_nth_cons {A : Type} (l : list A) (i : nat) (d : A) :
  i < length l -> skipn i l = nth i l d :: skipn (i + 1) l.
Proof.
  revert i; induction l as [|x l IH]; intros [|i] H; simpl in *; try lia.
  - reflexivity.
  - apply IH. lia.
Qed.

Lemma loadUsernames_loop_filter (rows : sheet) (i : nat) (names : list string) :
  loadUsernames_loop rows i names
  = (names ++ map username_of (filter includes (skipn i rows)))%list.
Proof.
  funelim (loadUsernames_loop rows i names).
  - rewrite (skipn_nth_cons rows i [] l). simpl.
    match goal with IH : _ = (_ ++ _)%list |- _ => rewrite IH end.
    unfold includes.
    destruct (nonEmpty _ && nonEmpty _ && negb _ && negb _); simpl.
    + now rewrite <- app_assoc.
    + reflexivity.
  - rewrite skipn_all2 by lia. simpl. now rewrite app_nil_r.
Qed.

Lemma loadUsernames_filter (rows : sheet) :
  loadUsernames rows = map username_of (filter includes (data_rows rows)).
Proof. apply loadUsernames_loop_filter. Qed.

Lemma includes_included (row : list value) : includes row = true <-> included row.
Proof.
  unfold includes, included, username_of, recent_of, identifier, flag.
  rewrite !andb_true_iff, !negb_true_iff, !nonEmpty_true, !String.eqb_neq.
  rewrite toLowerCase_empty. tauto.
Qed.

Lemma loadUsernames_cons (hd : list value) (rows : sheet) :
  loadUsernames (hd :: rows) = map username_of (filter includes rows).
Proof. apply loadUsernames_filter. Qed.

Lemma recent_of_string (row : list value) (f : string) :
  index row 4 = VStr f -> recent_of row = toLowerCase (trim f).
Proof.
  intros Hf. unfold recent_of, or_else. rewrite Hf.
  destruct f; reflexivity.
Qed.

(** C1.  [loadUsernames] returns, in row order, the identifier of exactly
    the data rows that pass the inclusion rule: identifier non-empty, flag
    non-empty, lower-cased flag neither "no" nor "false".  A row between
    other rows contributes its identifier at its place or nothing.  A flag
    "NO" in any case or "false" excludes the row, an empty or missing flag
    excludes it, and "yes", "1" or "true" include it. *)
Theorem loadUsernames_inclusion_rule :
  (forall rows : sheet,
      loadUsernames rows = map identifier (filter includes (data_rows rows)))
  /\ (forall row : list value, includes row = true <-> included row)
  /\ (forall (hd : list value) (before after : sheet) (row : list value),
        loadUsernames (hd :: before ++ row :: after)
        = (loadUsernames (hd :: before)
           ++ (if includes row then [identifier row] else [])
           ++ loadUsernames (hd :: after))%list)
  /\ (forall (row : list value) (f : string),
        index row 4 = VStr f ->
        In (trim f) ["NO"; "No"; "nO"; "no"; "false"; ""] ->
        includes row = false)
  /\ (forall row : list value, index row 4 = VUndefined -> includes row = false)
  /\ (forall (hd : list value) (f : string),
        In f ["yes"; "1"; "true"] ->
        loadUsernames [hd; [VStr "alice"; VNull; VNull; VNull; VStr f]] = ["alice"]).
Proof.
  split; [exact loadUsernames_filter|].
  split; [exact includes_included|].
  split.
  { intros hd before after row. rewrite !loadUsernames_cons.
    rewrite filter_app, map_app. simpl.
    destruct (includes row); reflexivity. }
  split.
  { intros row f Hf Hin. unfold includes.
    rewrite (recent_of_string row f Hf).
    destruct Hin as [E|[E|[E|[E|[E|[E|[]]]]]]]; rewrite <- E;
      simpl; rewrite ?andb_false_r; reflexivity. }
  split.
  { intros row Hf. unfold includes, recent_of. rewrite Hf. simpl.
    now rewrite andb_false_r. }
  intros hd f [E|[E|[E|[]]]]; subst f; reflexivity.
Qed.

Lemma Subsequence_map_filter {A B : Type} (f : A -> B) (p : A -> bool) (l : list A) :
  Subsequence (map f (filter p l)) (map f l).
Proof.
  induction l as [|x l IH]; simpl; [constructor|].
  destruct (p x); simpl; now constructor.
Qed.

Lemma includes_identifier (row : list value) :
  includes row = true -> identifier row <> "" /\ trim (identifier row) = identifier row.
Proof.
  intros H. apply includes_included in H. destruct H as [H _].
  split; [exact H|]. apply trim_idempotent.
Qed.

(** C7.  The roster is no longer than the number of data rows (the rows
    after the header), each of its identifiers is a non-empty string that
    trimming leaves unchanged, and the identifiers come in the order of
    their rows: the roster is the column of identifiers with some rows left
    out. *)
Theorem loadUsernames_roster_shape (rows : sheet) :
  length (data_rows rows) = length rows - 1
  /\ length (loadUsernames rows) <= length (data_rows rows)
  /\ Forall (fun name => name <> "" /\ trim name = name) (loadUsernames rows)
  /\ Subsequence (loadUsernames rows) (map identifier (data_rows rows)).
Proof.
  rewrite loadUsernames_filter.
  split; [apply length_skipn|].
  split; [rewrite length_map; apply filter_length_le|].
  split; [|apply Subsequence_map_filter].
  apply Forall_forall. intros name Hin.
  apply in_map_iff in Hin. destruct Hin as [row [<- Hrow]].
  apply filter_In in Hrow. apply includes_identifier, Hrow.
Qed.

Lemma includes_false_drop (hd : list value) (before after : sheet) (row : list value) :
  includes row = false ->
  loadUsernames (hd :: before ++ row :: after) = loadUsernames (hd :: before ++ after).
Proof.
  intros H. rewrite !loadUsernames_cons, !filter_app. simpl. now rewrite H.
Qed.

(** C10.  A cell holding the number 0 or the boolean false is replaced by
    the empty string before [toString] and [trim] apply, although it prints
    as a non-empty string.  A data row with such a cell in column A or in
    column E is therefore left out: the roster is the one the sheet gives
    without that row. *)
Theorem falsy_cell_excludes_row
  (hd : list value) (before after : sheet) (row : list value) :
  In (index row 0) [VNum 0; VBool false] \/ In (index row 4) [VNum 0; VBool false] ->
  (or_else (VNum 0) (VStr "") = VStr "" /\ or_else (VBool false) (VStr "") = VStr "")
  /\ (ToString (VNum 0) = "0" /\ ToString (VBool false) = "false")
  /\ (identifier row = "" \/ flag row = "")
  /\ includes row = false
  /\ loadUsernames (hd :: before ++ row :: after)
     = loadUsernames (hd :: before ++ after).
Proof.
  intros H.
  split; [split; reflexivity|].
  split; [split; reflexivity|].
  assert (Hempty : identifier row = "" \/ flag row = "").
  { unfold identifier, flag.
    destruct H as [[E|[E|[]]]|[E|[E|[]]]]; rewrite <- E; simpl; auto. }
  assert (Hex : includes row = false).
  { destruct (includes row) eqn:E; [|reflexivity].
    apply includes_included in E. destruct E as (E1 & E2 & _).
    destruct Hempty; contradiction. }
  split; [exact Hempty|]. split; [exact Hex|].
  now apply includes_false_drop.
Qed.

Lemma falsy_cell_excludes_row_witness :
  In (index [VStr "alice"; VNull; VNull; VNull; VBool false] 4) [VNum 0; VBool false]
  /\ loadUsernames [[VStr "name"];
                    [VStr "alice"; VNull; VNull; VNull; VBool false];
                    [VStr "bob"; VNull; VNull; VNull; VStr "yes"]]
     = loadUsernames [[VStr "name"];
                      [VStr "bob"; VNull; VNull; VNull; VStr "yes"]].
Proof.
  assert (H : In (index [VStr "alice"; VNull; VNull; VNull; VBool false] 4)
                 [VNum 0; VBool false]) by (simpl; auto).
  split; [exact H|].
  exact (proj2 (proj2 (proj2 (proj2
           (falsy_cell_excludes_row [VStr "name"] []
              [[VStr "bob"; VNull; VNull; VNull; VStr "yes"]]
              [VStr "alice"; VNull; VNull; VNull; VBool false]
              (or_intror H)))))).
Defined.

(** ** Batching *)

Lemma batches_from_step (names : list string) (i : nat) :
  i < length names ->
  batches_from names i = slice names i (i + 100) :: batches_from names (i + 100).
Proof.
  intros H. rewrite batches_from_equation_1.
  destruct (lt_dec i (length names)); [reflexivity | contradiction].
Qed.

Lemma batches_from_done (names : list string) (i : nat) :
  length names <= i -> batches_from names i = [].
Proof.
  intros H. rewrite batches_from_equation_1.
  destruct (lt_dec i (length names)); [lia | reflexivity].
Qed.

Lemma slice_length {A : Type} (l : list A) (i : nat) :
  length (slice l i (i + 100)) = Nat.min 100 (length l - i).
Proof.
  unfold slice. rewrite length_firstn, length_skipn.
  replace (i + 100 - i) with 100 by lia. reflexivity.
Qed.

Lemma batches_from_concat (names : list string) (i : nat) :
  concat (batches_from names i) = skipn i names.
Proof.
  remember (length names - i) as n eqn:Hn. revert i Hn.
  induction n as [n IH] using lt_wf_ind. intros i Hn.
  destruct (lt_dec i (length names)) as [Hlt|Hge].
  - rewrite (batches_from_step names i Hlt). simpl.
    rewrite (IH (length names - (i + 100))) by lia.
    unfold slice. replace (i + 100 - i) with 100 by lia.
    replace (i + 100) with (100 + i) by lia.
    rewrite <- skipn_skipn. apply firstn_skipn.
  - rewrite batches_from_done by lia. rewrite skipn_all2 by lia. reflexivity.
Qed.

Lemma batches_from_length (names : list string) (i : nat) :
  length (batches_from names i) = (length names - i + 99) / 100.
Proof.
  remember (length names - i) as n eqn:Hn. revert i Hn.
  induction n as [n IH] using lt_wf_ind. intros i Hn.
  destruct (lt_dec i (length names)) as [Hlt|Hge].
  - rewrite (batches_from_step names i Hlt). cbn [length].
    rewrite (IH (length names - (i + 100))) by lia.
    subst n. clear IH.
    destruct (le_lt_dec (i + 100) (length names)) as [Hfull|Hlast].
    + replace (length names - i + 99)
        with (length names - (i + 100) + 99 + 1 * 100) by lia.
      rewrite Nat.div_add by lia. lia.
    + replace (length names - (i + 100)) with 0 by lia.
      change (S ((0 + 99) / 100)) with 1.
      assert (E : 1 = (length names - i + 99) / 100)
        by (apply (Nat.div_unique _ 100 1 (length names - i - 1)); lia).
      now rewrite <- E.
  - rewrite batches_from_done by lia. subst n.
    replace (length names - i) with 0 by lia. reflexivity.
Qed.

Lemma batches_from_nth (names : list string) (i k : nat) :
  k < length (batches_from names i) ->
  nth k (batches_from names i) [] = slice names (i + 100 * k) (i + 100 * k + 100).
Proof.
  revert i. induction k as [|k IH]; intros i Hk.
  - destruct (lt_dec i (length names)) as [Hlt|Hge].
    + rewrite (batches_from_step names i Hlt). simpl.
      replace (i + 0) with i by lia. reflexivity.
    + rewrite batches_from_done in Hk by lia. simpl in Hk. lia.
  - destruct (lt_dec i (length names)) as [Hlt|Hge].
    + rewrite (batches_from_step names i Hlt) in *. simpl in Hk.
      change (nth (S k) (?x :: ?l) []) with (nth k l []).
      rewrite IH by lia. f_equal; lia.
    + rewrite batches_from_done in Hk by lia. simpl in Hk. lia.
Qed.

Lemma batches_from_sizes (names : list string) (i : nat) :
  Forall (fun b => 1 <= length b <= 100) (batches_from names i).
Proof.
  remember (length names - i) as n eqn:Hn. revert i Hn.
  induction n as [n IH] using lt_wf_ind. intros i Hn.
  destruct (lt_dec i (length names)) as [Hlt|Hge].
  - rewrite (batches_from_step names i Hlt). constructor.
    + rewrite slice_length. lia.
    + apply (IH (length names - (i + 100))); lia.
  - rewrite batches_from_done by lia. constructor.
Qed.

(** ** Running the program *)

(** Reduce a run up to the next outcome that depends on the host. *)
Ltac run_step :=
  cbn -[get nlt nadd nsub nmul truthy String.append ToNumber ToString reply clock
        loadUsernames checkLive_loop writeJSON JSON_stringify
        JSON_stringify_indent].

Section Runs.
Context {host : Host}.

Lemma set_requests_same (w : World) : set_requests (requests w) w = w.
Proof. destruct w; reflexivity. Qed.

Lemma get_prop (v : value) (k : string) :
  nullish v = false -> get v k = Ok (prop v k).
Proof. destruct v; simpl; intros H; congruence || reflexivity. Qed.

Lemma live_record_of (s : value) :
  nullish s = false -> live_record s = Ok (record_of s).
Proof.
  intros H. unfold live_record. rewrite !(get_prop s _ H). reflexivity.
Qed.

Lemma push_streams_records (entries acc : list value) :
  forallb (fun s => negb (nullish s)) entries = true ->
  push_streams entries acc = Ok (acc ++ map record_of entries)%list.
Proof.
  revert acc. induction entries as [|s rest IH]; intros acc H; simpl in *.
  - now rewrite app_nil_r.
  - apply andb_true_iff in H. destruct H as [Hs Hrest].
    apply negb_true_iff in Hs. rewrite (live_record_of s Hs).
    rewrite (IH _ Hrest), <- app_assoc. reflexivity.
Qed.

Lemma collect_streams_body (data : value) (acc : list value) :
  streams_body data -> collect data acc = Ok (acc ++ records_of data)%list.
Proof.
  intros [Hnn Hdata]. unfold collect, records_of.
  rewrite (get_prop data _ Hnn).
  destruct Hdata as [Hfalsy | [entries [Harr Hentries]]].
  - rewrite Hfalsy. destruct (prop data "data"); try discriminate;
      now rewrite app_nil_r.
  - rewrite Harr. simpl. now apply push_streams_records.
Qed.

Lemma replies_length (hist reqs : list Request) :
  length (replies hist reqs) = length reqs.
Proof.
  revert hist. induction reqs as [|r rs IH]; intros hist; simpl;
    [reflexivity | now rewrite IH].
Qed.

Lemma checkLive_loop_step (names : list string) (hdrs : list (string * value))
  (i : nat) (acc : list value) (w : World) :
  i < length names ->
  checkLive_loop names hdrs i acc w
  = match fetch_json (streams_request hdrs (slice names i (i + 100))) w with
    | (Ok data, w') =>
        match collect data acc with
        | Ok acc' => checkLive_loop names hdrs (i + 100) acc' w'
        | Throw e => (Throw e, w')
        end
    | (Throw e, w') => (Throw e, w')
    end.
Proof.
  intros H. rewrite checkLive_loop_equation_1.
  destruct (lt_dec i (length names)); [reflexivity | contradiction].
Qed.

Lemma checkLive_loop_done (names : list string) (hdrs : list (string * value))
  (i : nat) (acc : list value) (w : World) :
  length names <= i -> checkLive_loop names hdrs i acc w = (Ok acc, w).
Proof.
  intros H. rewrite checkLive_loop_equation_1.
  destruct (lt_dec i (length names)); [lia | reflexivity].
Qed.

(** A loop that completes has sent one request per batch, in order, and
    has touched nothing else. *)
Lemma checkLive_loop_requests (names : list string) (hdrs : list (string * value))
  (i : nat) (acc : list value) (w : World) (recs : list value) (w' : World) :
  checkLive_loop names hdrs i acc w = (Ok recs, w') ->
  w' = set_requests
         (requests w ++ map (streams_request hdrs) (batches_from names i))%list w.
Proof.
  remember (length names - i) as n eqn:Hn. revert i acc w Hn.
  induction n as [n IH] using lt_wf_ind. intros i acc w Hn Hrun.
  destruct (lt_dec i (length names)) as [Hlt|Hge].
  - rewrite (checkLive_loop_step names hdrs i acc w Hlt) in Hrun.
    rewrite (batches_from_step names i Hlt).
    unfold fetch_json in Hrun.
    destruct (reply (requests w) _) as [data|e]; [|discriminate].
    destruct (collect data acc) as [acc'|e]; [|discriminate].
    apply (IH (length names - (i + 100))) in Hrun; [|lia|reflexivity].
    rewrite Hrun. simpl. now rewrite <- app_assoc.
  - rewrite (checkLive_loop_done names hdrs i acc w) in Hrun by lia.
    injection Hrun as _ <-. rewrite batches_from_done by lia.
    simpl. rewrite app_nil_r. symmetry. apply set_requests_same.
Qed.

(** With well-shaped bodies the loop completes and returns what the bodies
    hold, batch after batch. *)
Lemma checkLive_loop_records (names : list string) (hdrs : list (string * value))
  (i : nat) (acc : list value) (w : World) (datas : list value) :
  replies (requests w) (map (streams_request hdrs) (batches_from names i))
  = map Ok datas ->
  Forall streams_body datas ->
  checkLive_loop names hdrs i acc w
  = (Ok (acc ++ concat (map records_of datas))%list,
     set_requests
       (requests w ++ map (streams_request hdrs) (batches_from names i))%list w).
Proof.
  remember (length names - i) as n eqn:Hn. revert i acc w datas Hn.
  induction n as [n IH] using lt_wf_ind. intros i acc w datas Hn Hrep Hwf.
  destruct (lt_dec i (length names)) as [Hlt|Hge].
  - rewrite (checkLive_loop_step names hdrs i acc w Hlt).
    rewrite (batches_from_step names i Hlt) in *.
    simpl in Hrep. destruct datas as [|data datas]; [discriminate|].
    simpl in Hrep. injection Hrep as Hdata Hrest.
    inversion Hwf as [|? ? Hbody Hbodies]; subst.
    unfold fetch_json. rewrite Hdata.
    rewrite (collect_streams_body data acc Hbody).
    rewrite (IH (length names - (i + 100))) with (datas := datas);
      try lia; try reflexivity; try assumption.
    simpl. now rewrite <- !app_assoc.
  - rewrite (checkLive_loop_done names hdrs i acc w) by lia.
    rewrite batches_from_done in * by lia.
    destruct datas; [|discriminate]. simpl.
    now rewrite !app_nil_r, set_requests_same.
Qed.

(** *** Token Cache *)

Lemma getToken_hit (w : World) :
  truthy (token (tokenCache w)) = true ->
  nlt (Num (clock (ticks w))) (expiry (tokenCache w)) = true ->
  getToken w = (Ok (token (tokenCache w)), after_hit w).
Proof.
  intros Htok Hexp. unfold getToken, bind, Date_now, read.
  run_step. now rewrite Htok, Hexp.
Qed.

Lemma getToken_exchange_denied (w : World) (client_id client_secret data tok : value) :
  cache_miss w ->
  get (CONFIG w) "twitch_client_id" = Ok client_id ->
  get (CONFIG w) "twitch_client_secret" = Ok client_secret ->
  reply (requests w) (token_request client_id client_secret) = Ok data ->
  get data "access_token" = Ok tok ->
  truthy tok = false ->
  getToken w
  = (Throw (Error ("Failed to fetch Twitch token: " ++ JSON_stringify data)),
     after_exchange w (token_request client_id client_secret)).
Proof.
  unfold cache_miss. intros Hmiss Hid Hsecret Hreply Htok Hfalsy.
  unfold getToken, bind, Date_now, read, lift, fetch_json, throw.
  run_step. rewrite Hmiss. run_step. rewrite Hid, Hsecret. run_step.
  rewrite Hreply, Htok, Hfalsy. reflexivity.
Qed.

Lemma getToken_exchange_granted (w : World)
  (client_id client_secret data tok expires_in : value) :
  cache_miss w ->
  get (CONFIG w) "twitch_client_id" = Ok client_id ->
  get (CONFIG w) "twitch_client_secret" = Ok client_secret ->
  reply (requests w) (token_request client_id client_secret) = Ok data ->
  get data "access_token" = Ok tok ->
  truthy tok = true ->
  get data "expires_in" = Ok expires_in ->
  getToken w
  = (Ok tok,
     after_refresh w (token_request client_id client_secret) tok expires_in).
Proof.
  unfold cache_miss. intros Hmiss Hid Hsecret Hreply Htok Htruthy Hexp.
  unfold getToken, bind, Date_now, read, lift, fetch_json, modify, console_print,
    ret.
  run_step. rewrite Hmiss. run_step. rewrite Hid, Hsecret. run_step.
  rewrite Hreply, Htok, Htruthy. run_step.
  rewrite Hexp. reflexivity.
Qed.

(** C3.  When the cache holds a token and the clock reads a time strictly
    before the cached expiry, [getToken] returns the cached token, leaves
    the cache as it is and sends no request.  So of two calls in a row, the
    first finding no usable token and exchanging the credentials, the
    second made before the new expiry, only the first sends a request, and
    both return the same token. *)
Theorem getToken_reuses_cached_token :
  (forall w : World,
      truthy (token (tokenCache w)) = true ->
      nlt (Num (clock (ticks w))) (expiry (tokenCache w)) = true ->
      exists w',
        getToken w = (Ok (token (tokenCache w)), w')
        /\ tokenCache w' = tokenCache w
        /\ requests w' = requests w)
  /\ (forall (w : World) (client_id client_secret data tok : value) (lifetime : Z),
        cache_miss w ->
        get (CONFIG w) "twitch_client_id" = Ok client_id ->
        get (CONFIG w) "twitch_client_secret" = Ok client_secret ->
        reply (requests w) (token_request client_id client_secret) = Ok data ->
        get data "access_token" = Ok tok ->
        truthy tok = true ->
        get data "expires_in" = Ok (VNum lifetime) ->
        (clock (S (ticks w)) < clock (ticks w) + lifetime * 1000 - 60000)%Z ->
        exists w1 w2,
          getToken w = (Ok tok, w1)
          /\ getToken w1 = (Ok tok, w2)
          /\ requests w1 = (requests w ++ [token_request client_id client_secret])%list
          /\ requests w2 = requests w1).
Proof.
  split.
  - intros w Htok Hexp. exists (after_hit w).
    rewrite (getToken_hit w Htok Hexp). auto.
  - intros w client_id client_secret data tok lifetime
      Hmiss Hid Hsecret Hreply Htok Htruthy Hexp Hwindow.
    pose (req := token_request client_id client_secret).
    pose (w1 := after_refresh w req tok (VNum lifetime)).
    exists w1, (after_hit w1).
    rewrite (getToken_exchange_granted w _ _ _ _ _
               Hmiss Hid Hsecret Hreply Htok Htruthy Hexp).
    split; [reflexivity|]. split; [|auto].
    apply (getToken_hit w1); simpl; [exact Htruthy|].
    now apply Z.ltb_lt.
Qed.

(** C5.  A call that finds no usable token in the cache and whose
    credential exchange answers with an access token and a lifetime of
    [expires_in] seconds returns that token, having sent the one exchange
    request and replaced the cache by the new token with the expiry
    [now + expires_in * 1000 - 60000] milliseconds, [now] being the time
    read when the call began.  The numbers are safe integers, so that the
    three operations do not round. *)
Theorem getToken_refresh_expiry (w : World)
  (client_id client_secret data tok : value) (expires_in : Z) :
  cache_miss w ->
  get (CONFIG w) "twitch_client_id" = Ok client_id ->
  get (CONFIG w) "twitch_client_secret" = Ok client_secret ->
  reply (requests w) (token_request client_id client_secret) = Ok data ->
  get data "access_token" = Ok tok ->
  truthy tok = true ->
  get data "expires_in" = Ok (VNum expires_in) ->
  expiry_is_exact (clock (ticks w)) expires_in ->
  exists w',
    getToken w = (Ok tok, w')
    /\ tokenCache w'
       = mkTokenCache tok (Num (clock (ticks w) + expires_in * 1000 - 60000))
    /\ requests w' = (requests w ++ [token_request client_id client_secret])%list.
Proof.
  intros Hmiss Hid Hsecret Hreply Htok Htruthy Hexp _.
  exists (after_refresh w (token_request client_id client_secret) tok
            (VNum expires_in)).
  rewrite (getToken_exchange_granted w _ _ _ _ _
             Hmiss Hid Hsecret Hreply Htok Htruthy Hexp).
  repeat split.
Qed.

(** *** [main] when the credential exchange is denied *)



(** *** Live-Status Checker *)

Lemma checkLive_inv (names : list string) (w : World) (recs : list value) (w' : World) :
  checkLive names w = (Ok recs, w') ->
  exists tok w1 client_id,
    getToken w = (Ok tok, w1)
    /\ get (CONFIG w1) "twitch_client_id" = Ok client_id
    /\ checkLive_loop names (stream_headers client_id tok) 0 [] w1 = (Ok recs, w').
Proof.
  unfold checkLive, bind, read, lift. intros H.
  destruct (getToken w) as [[tok|e] w1]; [|discriminate].
  destruct (get (CONFIG w1) "twitch_client_id") as [client_id|e] eqn:Hid;
    [|discriminate].
  exists tok, w1, client_id. repeat split; [exact Hid | exact H].
Qed.

Lemma checkLive_run (names : list string) (w w1 : World) (tok client_id : value) :
  getToken w = (Ok tok, w1) ->
  get (CONFIG w1) "twitch_client_id" = Ok client_id ->
  checkLive names w = checkLive_loop names (stream_headers client_id tok) 0 [] w1.
Proof.
  intros Htok Hid. unfold checkLive, bind, read, lift. now rewrite Htok, Hid.
Qed.

Lemma split_on_free (c : ascii) (p : string) :
  has_char c p = false -> split_on c p = [p].
Proof.
  unfold has_char. induction p as [|a r IH]; simpl; [reflexivity|].
  intros H. apply orb_false_iff in H. destruct H as [Ha Hr].
  rewrite Ascii.eqb_sym, Ha, (IH Hr). reflexivity.
Qed.

Lemma split_on_app (c : ascii) (p rest : string) :
  has_char c p = false ->
  split_on c (p ++ String c rest) = p :: split_on c rest.
Proof.
  unfold has_char. induction p as [|a r IH]; simpl.
  - intros _. now rewrite Ascii.eqb_refl.
  - intros H. apply orb_false_iff in H. destruct H as [Ha Hr].
    rewrite Ascii.eqb_sym, Ha, (IH Hr). reflexivity.
Qed.

Lemma split_on_join (parts : list string) :
  parts <> [] ->
  Forall (fun p => has_char "&" p = false) parts ->
  split_on "&" (join "&" parts) = parts.
Proof.
  induction parts as [|p ps IH]; [congruence|]. intros _ Hfree.
  inversion Hfree as [|? ? Hp Hps]; subst.
  destruct ps as [|q qs].
  - simpl. now apply split_on_free.
  - change (join "&" (p :: q :: qs)) with (p ++ String "&" (join "&" (q :: qs))).
    rewrite (split_on_app "&" p _ Hp). f_equal. apply IH; [discriminate | exact Hps].
Qed.

Lemma join_nonEmpty (sep p : string) (ps : list string) :
  nonEmpty p = true -> nonEmpty (join sep (p :: ps)) = true.
Proof. destruct p; [discriminate|]. destruct ps; reflexivity. Qed.

(** A streams query read back: its parameters are the batch's identifiers,
    encoded, one [user_login] each and in the batch's order. *)
Lemma streams_request_parameters (hdrs : list (string * value)) (batch : list string) :
  (forall n, In n batch -> has_char "&" (encodeURIComponent n) = false) ->
  query_parameters (url (streams_request hdrs batch))
  = map (fun n => "user_login=" ++ encodeURIComponent n) batch.
Proof.
  intros Hfree. unfold streams_request, query_parameters. cbn [url].
  change (after_char "?" ("https://api.twitch.tv/helix/streams?" ++ ?q)) with q.
  destruct batch as [|n ns]; [reflexivity|].
  cbn [map]. rewrite join_nonEmpty by reflexivity.
  apply (split_on_join (_ :: _)); [discriminate|].
  change (Forall (fun p => has_char "&" p = false)
            (map (fun m => "user_login=" ++ encodeURIComponent m) (n :: ns))).
  apply Forall_forall. intros p Hp. apply in_map_iff in Hp.
  destruct Hp as [m [<- Hm]]. simpl. now apply Hfree.
Qed.

Lemma in_batches (names : list string) (batch : list string) (n : string) :
  In batch (batches names) -> In n batch -> In n names.
Proof.
  intros Hb Hn. pose proof (batches_from_concat names 0) as Hcat.
  change (skipn 0 names) with names in Hcat. rewrite <- Hcat.
  apply in_concat. exists batch. auto.
Qed.

(** C2.  The batches that [checkLive] takes from a roster are consecutive
    slices of it: put end to end they give the roster back, the one of rank
    [k] is [names.slice(100k, 100k + 100)], each holds between 1 and 100
    identifiers, and there are [ceil(length / 100)] of them.  A call that
    completes has sent, after the token step, exactly one streams query per
    batch, in batch order: a GET whose query string, read back, holds the
    batch's identifiers, encoded, one [user_login] parameter each and in the
    batch's order (the encoding of an identifier holds no ampersand).  For
    a roster of 250 identifiers that is three queries, of sizes 100, 100
    and 50. *)
Theorem checkLive_batching (names : list string) :
  concat (batches names) = names
  /\ Forall (fun b => 1 <= length b <= 100) (batches names)
  /\ length (batches names) = (length names + 99) / 100
  /\ (forall k, k < length (batches names) ->
        nth k (batches names) [] = slice names (100 * k) (100 * k + 100))
  /\ (forall (w : World) (recs : list value) (w' : World),
        checkLive names w = (Ok recs, w') ->
        (forall n, In n names -> has_char "&" (encodeURIComponent n) = false) ->
        exists tok w1 client_id sent,
          getToken w = (Ok tok, w1)
          /\ get (CONFIG w1) "twitch_client_id" = Ok client_id
          /\ requests w' = (requests w1 ++ sent)%list
          /\ sent = map (streams_request (stream_headers client_id tok))
                        (batches names)
          /\ Forall (fun req => method req = "GET"
                                /\ headers req = stream_headers client_id tok) sent
          /\ map (fun req => query_parameters (url req)) sent
             = map (map (fun n => "user_login=" ++ encodeURIComponent n))
                   (batches names)
          /\ map request_size sent = map (@length string) (batches names)
          /\ (length names = 250 -> map request_size sent = [100; 100; 50]))
  /\ (length names = 250 -> map (@length string) (batches names) = [100; 100; 50]).
Proof.
  assert (Hsizes : length names = 250 ->
                   map (@length string) (batches names) = [100; 100; 50]).
  { intros Hlen. unfold batches.
    rewrite (batches_from_step names 0) by lia.
    rewrite (batches_from_step names (0 + 100)) by lia.
    rewrite (batches_from_step names (0 + 100 + 100)) by lia.
    rewrite (batches_from_done names (0 + 100 + 100 + 100)) by lia.
    cbn [map]. rewrite !slice_length, Hlen. reflexivity. }
  split; [apply batches_from_concat|].
  split; [apply batches_from_sizes|].
  split; [unfold batches; rewrite batches_from_length; now rewrite Nat.sub_0_r|].
  split; [intros k Hk; unfold batches in *; now rewrite batches_from_nth|].
  split; [|exact Hsizes].
  intros w recs w' Hrun Hfree.
  destruct (checkLive_inv names w recs w' Hrun)
    as (tok & w1 & client_id & Ht & Hid & Hloop).
  exists tok, w1, client_id,
    (map (streams_request (stream_headers client_id tok)) (batches names)).
  split; [exact Ht|]. split; [exact Hid|].
  split; [now rewrite (checkLive_loop_requests _ _ _ _ _ _ _ Hloop)|].
  split; [reflexivity|].
  assert (Hparams :
            map (fun req => query_parameters (url req))
                (map (streams_request (stream_headers client_id tok)) (batches names))
            = map (map (fun n => "user_login=" ++ encodeURIComponent n))
                  (batches names)).
  { rewrite map_map. apply map_ext_in. intros batch Hbatch.
    apply streams_request_parameters. intros n Hn.
    apply Hfree. now apply (in_batches names batch). }
  assert (Hcount :
            map request_size
                (map (streams_request (stream_headers client_id tok)) (batches names))
            = map (@length string) (batches names)).
  { unfold request_size.
    rewrite <- (map_map (fun req => query_parameters (url req)) (@length string)).
    rewrite Hparams, map_map. apply map_ext. intros batch. apply length_map. }
  split.
  { apply Forall_forall. intros req Hreq. apply in_map_iff in Hreq.
    destruct Hreq as [batch [<- _]]. split; reflexivity. }
  split; [exact Hparams|]. split; [exact Hcount|].
  intros Hlen. rewrite Hcount. now apply Hsizes.
Qed.

(** C6, for bodies of the shape the endpoint documents.  Let the token
    step succeed and let every streams query be answered by a parsed body
    other than [null] whose [data] is absent or falsy, or is an array
    without [null] entries.  Then [checkLive] completes, having sent every
    batch's query, and returns the records of the first body, then those of
    the second, and so on.  A body without a data collection contributes no
    record, a body with one contributes one record per entry in the
    collection's order, and a record's title and game are the empty string
    when the entry has none. *)
Theorem checkLive_records (names : list string) (w w1 : World)
  (tok client_id : value) (datas : list value) :
  getToken w = (Ok tok, w1) ->
  get (CONFIG w1) "twitch_client_id" = Ok client_id ->
  replies (requests w1)
          (map (streams_request (stream_headers client_id tok)) (batches names))
  = map Ok datas ->
  Forall streams_body datas ->
  checkLive names w
  = (Ok (concat (map records_of datas)),
     set_requests
       (requests w1
        ++ map (streams_request (stream_headers client_id tok)) (batches names))%list
       w1)
  /\ length datas = length (batches names)
  /\ (forall data, no_data data -> records_of data = [])
  /\ (forall data entries,
        prop data "data" = VArr entries -> records_of data = map record_of entries)
  /\ (forall s, prop s "title" = VUndefined -> prop (record_of s) "title" = VStr "")
  /\ (forall s, prop s "game_name" = VUndefined -> prop (record_of s) "game" = VStr "").
Proof.
  intros Htok Hid Hrep Hwf.
  split.
  { rewrite (checkLive_run names w w1 tok client_id Htok Hid).
    now rewrite (checkLive_loop_records names _ 0 [] w1 datas Hrep Hwf). }
  split.
  { apply (f_equal (@length _)) in Hrep.
    now rewrite length_map, replies_length, length_map in Hrep. }
  split.
  { intros data [_ Hfalsy]. unfold records_of.
    destruct (prop data "data"); try reflexivity. discriminate. }
  split.
  { intros data entries Harr. unfold records_of. now rewrite Harr. }
  split; intros s Hs; unfold record_of; simpl; now rewrite Hs.
Qed.

(** *** Snapshot Writer *)

Lemma writeJSON_writes (liveList : list value) (w : World) :
  writable w liveList ->
  writeJSON liveList w
  = (Ok (snapshot (toISOString (clock (ticks w))) liveList), written w liveList).
Proof.
  unfold writable, output_text. intros Hwrite.
  unfold writeJSON, bind, Date_now, writeFileSync, console_print, modify, ret.
  cbn [files set_ticks ticks]. now rewrite Hwrite.
Qed.

Lemma writeJSON_throws (liveList : list value) (w : World)
  (e : exn) (remains : option string) :
  write_failure (files w) OUTPUT_FILE (output_text w liveList) = Some (e, remains) ->
  writeJSON liveList w = (Throw e, write_failed w remains).
Proof.
  unfold output_text. intros Hwrite.
  unfold writeJSON, bind, Date_now, writeFileSync, console_print, modify, ret.
  cbn [files set_ticks ticks]. now rewrite Hwrite.
Qed.

(** C8.  Where the write succeeds, [writeJSON] returns the object whose
    [timestamp] is the ISO form of the time it reads and whose [live] is the
    given list itself, and leaves the indented JSON text of that object in
    the output file.  Called again with the same list, and the write
    succeeding again, it does the same with the next time read: the two
    objects, and so the two file contents, differ in [timestamp] only. *)
Theorem writeJSON_deterministic_modulo_timestamp (liveList : list value) (w : World) :
  writable w liveList ->
  writable (written w liveList) liveList ->
  exists w1 w2,
    let out1 := snapshot (toISOString (clock (ticks w))) liveList in
    let out2 := snapshot (toISOString (clock (S (ticks w)))) liveList in
    writeJSON liveList w = (Ok out1, w1)
    /\ writeJSON liveList w1 = (Ok out2, w2)
    /\ files w1 OUTPUT_FILE = Some (JSON_stringify_indent out1)
    /\ files w2 OUTPUT_FILE = Some (JSON_stringify_indent out2)
    /\ get out1 "live" = Ok (VArr liveList)
    /\ get out2 "live" = Ok (VArr liveList)
    /\ out1 = VObj [("timestamp", VStr (toISOString (clock (ticks w))));
                    ("live", VArr liveList)]
    /\ out2 = VObj [("timestamp", VStr (toISOString (clock (S (ticks w)))));
                    ("live", VArr liveList)].
Proof.
  intros Hfirst Hsecond.
  exists (written w liveList), (written (written w liveList) liveList). cbv zeta.
  split; [now apply writeJSON_writes|].
  split; [now apply (writeJSON_writes liveList (written w liveList))|].
  repeat split; reflexivity.
Qed.

(** *** Config Resolver *)

(** C9 (as the code has it).  The Config Resolver never throws and always
    leaves a value in [CONFIG].  With both environment variables set and
    non-empty, [CONFIG] holds them and nothing is printed.  Otherwise, if
    [config.json] cannot be read or does not parse, [CONFIG] keeps the
    empty credentials and the warning is printed; if it is read and parsed,
    [CONFIG] becomes the parsed value as it is and nothing is printed. *)
Theorem init_CONFIG_outcomes (w : World) :
  exists w',
    init_CONFIG w = (Ok tt, w')
    /\ (env_usable = true ->
        CONFIG w' = VObj [("twitch_client_id", env_value "TWITCH_CLIENT_ID");
                          ("twitch_client_secret", env_value "TWITCH_CLIENT_SECRET")]
        /\ console w' = console w)
    /\ (env_usable = false ->
        match files w "config.json" with
        | None =>
            CONFIG w' = empty_credentials
            /\ console w' = (console w ++ [config_warning])%list
        | Some text =>
            match JSON_parse text with
            | Ok parsed => CONFIG w' = parsed /\ console w' = console w
            | Throw _ =>
                CONFIG w' = empty_credentials
                /\ console w' = (console w ++ [config_warning])%list
            end
        end).
Proof.
  unfold init_CONFIG, env_usable, bind, try_catch, modify, readFileSync, lift,
    console_print.
  destruct (truthy (env_value "TWITCH_CLIENT_ID")
            && truthy (env_value "TWITCH_CLIENT_SECRET")) eqn:Henv.
  - eexists. split; [reflexivity|]. split; [|discriminate].
    intros _. split; reflexivity.
  - cbn [files set_CONFIG].
    destruct (files w "config.json") as [text|] eqn:Hfile.
    + destruct (JSON_parse text) as [parsed|e] eqn:Hparse.
      * eexists. split; [reflexivity|]. split; [discriminate|].
        intros _. split; reflexivity.
      * eexists. split; [reflexivity|]. split; [discriminate|].
        intros _. split; reflexivity.
    + eexists. split; [reflexivity|]. split; [discriminate|].
      intros _. split; reflexivity.
Qed.

End Runs.

(** ** The theorems on the sample hosts *)

Lemma loadUsernames_inclusion_rule_witness :
  loadUsernames Sample.roster_sheet = ["alice"]
  /\ includes (Sample.row (VStr "bob") (VStr " No ")) = false
  /\ loadUsernames [Sample.row (VStr "username") (VStr "recent");
                    Sample.row (VStr "alice") (VStr "true")] = ["alice"].
Proof.
  destruct loadUsernames_inclusion_rule as (Hroster & _ & _ & Hno & _ & Hyes).
  split; [rewrite Hroster; reflexivity|].
  split.
  - apply (Hno (Sample.row (VStr "bob") (VStr " No ")) " No "); [reflexivity|].
    simpl. auto.
  - apply (Hyes (Sample.row (VStr "username") (VStr "recent")) "true").
    simpl. auto.
Defined.

Lemma checkLive_batching_witness :
  map (@length string) (batches (Sample.many 250)) = [100; 100; 50]
  /\ exists tok w1 client_id sent,
       @getToken Sample.granting (Sample.loaded Sample.granting Sample.no_files)
       = (Ok tok, w1)
       /\ get (CONFIG w1) "twitch_client_id" = Ok client_id
       /\ requests (snd (@checkLive Sample.granting (Sample.many 250)
                           (Sample.loaded Sample.granting Sample.no_files)))
          = (requests w1 ++ sent)%list
       /\ map request_size sent = [100; 100; 50].
Proof.
  destruct (@checkLive_batching Sample.granting (Sample.many 250))
    as (_ & _ & _ & _ & Hrun & Hsizes).
  split; [apply Hsizes; reflexivity|].
  destruct (Hrun (Sample.loaded Sample.granting Sample.no_files)
              (concat (map records_of [Sample.alice_live; Sample.alice_live;
                                       Sample.alice_live]))
              (snd (@checkLive Sample.granting (Sample.many 250)
                      (Sample.loaded Sample.granting Sample.no_files))))
    as (tok & w1 & client_id & sent & Ht & Hid & Hreq & _ & _ & _ & _ & H250).
  - vm_compute. reflexivity.
  - intros n Hn. apply repeat_spec in Hn. subst n. reflexivity.
  - exists tok, w1, client_id, sent.
    split; [exact Ht|]. split; [exact Hid|]. split; [exact Hreq|].
    apply H250. reflexivity.
Defined.

Lemma getToken_reuses_cached_token_witness :
  exists w1 w2 w3,
    @getToken Sample.granting (Sample.loaded Sample.granting Sample.no_files)
    = (Ok (VStr "t0k3n"), w1)
    /\ @getToken Sample.granting w1 = (Ok (VStr "t0k3n"), w2)
    /\ requests w2 = requests w1
    /\ @getToken Sample.granting w2 = (Ok (VStr "t0k3n"), w3)
    /\ requests w3 = requests w2.
Proof.
  destruct (@getToken_reuses_cached_token Sample.granting) as [Hhit Htwice].
  destruct (Htwice (Sample.loaded Sample.granting Sample.no_files)
                   (VStr "id") (VStr "secret") Sample.token_body (VStr "t0k3n") 3600%Z)
    as (w1 & w2 & H1 & H2 & _ & Hsame); try reflexivity.
  assert (Hw2 : w2 = snd (@getToken Sample.granting w1)) by (now rewrite H2).
  assert (Hw1 : w1 = snd (@getToken Sample.granting
                            (Sample.loaded Sample.granting Sample.no_files)))
    by (now rewrite H1).
  destruct (Hhit w2) as (w3 & H3 & _ & Hsame3).
  - rewrite Hw2, Hw1. reflexivity.
  - rewrite Hw2, Hw1. reflexivity.
  - exists w1, w2, w3. repeat split; try assumption.
    rewrite H3. f_equal. f_equal. rewrite Hw2, Hw1. reflexivity.
Defined.

Lemma getToken_refresh_expiry_witness :
  exists w',
    @getToken Sample.granting (Sample.loaded Sample.granting Sample.no_files)
    = (Ok (VStr "t0k3n"), w')
    /\ tokenCache w' = mkTokenCache (VStr "t0k3n") (Num 1700003540000)
    /\ requests w' = [token_request (VStr "id") (VStr "secret")].
Proof.
  apply (@getToken_refresh_expiry Sample.granting
           (Sample.loaded Sample.granting Sample.no_files)
           (VStr "id") (VStr "secret") Sample.token_body (VStr "t0k3n") 3600%Z);
    try reflexivity.
  unfold expiry_is_exact, safe_integer. simpl. lia.
Defined.


Lemma checkLive_records_witness :
  fst (@checkLive Sample.degraded (Sample.many 150)
         (Sample.loaded Sample.degraded Sample.no_files))
  = Ok [VObj [("username", VStr "dave"); ("title", VStr ""); ("game", VStr "");
              ("started_at", VStr "2024-01-01T00:05:00Z")]].
Proof.
  pose (w := Sample.loaded Sample.degraded Sample.no_files).
  destruct (@checkLive_records Sample.degraded (Sample.many 150) w
              (snd (@getToken Sample.degraded w)) (VStr "t0k3n") (VStr "id")
              [Sample.error_body; Sample.untitled_live]) as [Hrun _].
  - reflexivity.
  - reflexivity.
  - vm_compute. reflexivity.
  - constructor; [split; [reflexivity | left; reflexivity]|].
    constructor; [|constructor].
    split; [reflexivity|]. right.
    exists [VObj [("user_name", VStr "dave");
                  ("started_at", VStr "2024-01-01T00:05:00Z")]].
    split; reflexivity.
  - fold w. rewrite Hrun. reflexivity.
Defined.

Lemma init_CONFIG_outcomes_witness :
  (exists w', @init_CONFIG Sample.granting (initial_World Sample.no_files) = (Ok tt, w')
              /\ CONFIG w' = VObj [("twitch_client_id", VStr "id");
                                   ("twitch_client_secret", VStr "secret")]
              /\ console w' = [])
  /\ (exists w', @init_CONFIG Sample.unconfigured (initial_World Sample.no_files)
                 = (Ok tt, w')
                 /\ CONFIG w' = empty_credentials
                 /\ console w' = [config_warning]).
Proof.
  split.
  - destruct (@init_CONFIG_outcomes Sample.granting (initial_World Sample.no_files))
      as (w' & Hrun & Henv & _).
    exists w'. split; [exact Hrun|]. apply Henv. reflexivity.
  - destruct (@init_CONFIG_outcomes Sample.unconfigured (initial_World Sample.no_files))
      as (w' & Hrun & _ & Hfile).
    exists w'. split; [exact Hrun|]. apply Hfile. reflexivity.
Defined.

Lemma writeJSON_deterministic_modulo_timestamp_witness :
  exists w1 w2,
    @writeJSON Sample.granting (records_of Sample.alice_live)
      (initial_World Sample.old_snapshot)
    = (Ok (snapshot "T1700000000000" (records_of Sample.alice_live)), w1)
    /\ @writeJSON Sample.granting (records_of Sample.alice_live) w1
       = (Ok (snapshot "T1700000001000" (records_of Sample.alice_live)), w2).
Proof.
  destruct (@writeJSON_deterministic_modulo_timestamp Sample.granting
              (records_of Sample.alice_live) (initial_World Sample.old_snapshot))
    as (w1 & w2 & H1 & H2 & _); [reflexivity | reflexivity |].
  exists w1, w2. split; [exact H1 | exact H2].
Defined.


(** C9, as stated, fails: with no environment variable set and a
    [config.json] that parses to an object without the two fields, neither
    source yields usable values, yet no warning is printed and [CONFIG] is
    the parsed object, not the empty credentials. *)
Lemma unusable_config_file_gives_no_warning :
  @env_usable Sample.unconfigured = false
  /\ (exists text parsed,
        Sample.empty_config_file "config.json" = Some text
        /\ @JSON_parse Sample.unconfigured text = Ok parsed
        /\ usable_credentials parsed = false)
  /\ fst (@init_CONFIG Sample.unconfigured (initial_World Sample.empty_config_file))
     = Ok tt
  /\ console (snd (@init_CONFIG Sample.unconfigured
                     (initial_World Sample.empty_config_file))) = []
  /\ CONFIG (snd (@init_CONFIG Sample.unconfigured
                    (initial_World Sample.empty_config_file))) = VObj []
  /\ VObj [] <> empty_credentials.
Proof.
  split; [reflexivity|].
  split; [exists "{}", (VObj []); repeat split; reflexivity|].
  repeat split; try reflexivity. discriminate.
Qed.

(** C6, as stated, fails.  The roster has two batches.  When the first
    query is answered by an empty body, which holds no data collection,
    [res.json()] rejects: [checkLive] ends there with that error (no list
    of records is returned) and the second batch is never queried.  The
    same happens when the first body is the JSON value [null], on which
    reading [data] throws. *)
Lemma empty_body_aborts_remaining_batches :
  length (batches (Sample.many 150)) = 2
  /\ fst (@checkLive Sample.empty_first (Sample.many 150)
            (Sample.loaded Sample.empty_first Sample.no_files))
     = Throw (Error "invalid json response body: Unexpected end of JSON input")
  /\ map method
         (requests (snd (@checkLive Sample.empty_first (Sample.many 150)
                           (Sample.loaded Sample.empty_first Sample.no_files))))
     = ["POST"; "GET"]
  /\ prop VNull "data" = VUndefined
  /\ fst (@checkLive Sample.null_first (Sample.many 150)
            (Sample.loaded Sample.null_first Sample.no_files))
     = Throw (TypeError "Cannot read properties of null (reading 'data')")
  /\ map method
         (requests (snd (@checkLive Sample.null_first (Sample.many 150)
                           (Sample.loaded Sample.null_first Sample.no_files))))
     = ["POST"; "GET"].
Proof. repeat split; vm_compute; reflexivity. Qed.

(** The end-to-end scenario: of the rows alice/yes, bob/no and carol/empty
    only alice is on the roster; the platform reports her live, and the
    output file receives the snapshot with her record. *)
Example end_to_end_scenario :
  loadUsernames Sample.roster_sheet = ["alice"]
  /\ let run := @main Sample.granting (Sample.loaded Sample.granting Sample.no_files) in
     fst run = Ok tt
     /\ exitCode (snd run) = None
     /\ files (snd run) OUTPUT_FILE
        = Some (@JSON_stringify_indent Sample.granting
                  (snapshot (@toISOString Sample.granting 1700000001000)
                     [VObj [("username", VStr "alice"); ("title", VStr "Chess");
                            ("game", VStr "Chess.com");
                            ("started_at", VStr "2024-01-01T00:00:00Z")]])).
Proof. repeat split; vm_compute; reflexivity. Qed.

(** * Further properties of the program *)

Section Further.
Context {host : Host}.

(** ** Token Cache *)

Lemma get_Ok_prop (v : value) (k : string) (x : value) :
  get v k = Ok x -> nullish v = false /\ x = prop v k.
Proof. destruct v; simpl; intros H; try discriminate; split; congruence. Qed.

Lemma cache_hit_or_miss (w : World) :
  (truthy (token (tokenCache w)) = true
   /\ nlt (Num (clock (ticks w))) (expiry (tokenCache w)) = true)
  \/ cache_miss w.
Proof.
  unfold cache_miss.
  destruct (truthy (token (tokenCache w))); [|now right].
  destruct (nlt _ _); [left; auto | now right].
Qed.

Lemma getToken_config_throws (w : World) (e : exn) :
  cache_miss w ->
  (get (CONFIG w) "twitch_client_id" = Throw e
   \/ (exists client_id, get (CONFIG w) "twitch_client_id" = Ok client_id)
      /\ get (CONFIG w) "twitch_client_secret" = Throw e) ->
  getToken w = (Throw e, after_hit w).
Proof.
  unfold cache_miss. intros Hmiss Hcfg.
  unfold getToken, bind, Date_now, read, lift, fetch_json, throw.
  run_step. rewrite Hmiss. run_step.
  destruct Hcfg as [Hid | [[client_id Hid] Hsecret]].
  - rewrite Hid. reflexivity.
  - rewrite Hid, Hsecret. reflexivity.
Qed.

Lemma getToken_reply_throws (w : World) (client_id client_secret : value) (e : exn) :
  cache_miss w ->
  get (CONFIG w) "twitch_client_id" = Ok client_id ->
  get (CONFIG w) "twitch_client_secret" = Ok client_secret ->
  (reply (requests w) (token_request client_id client_secret) = Throw e
   \/ exists data, reply (requests w) (token_request client_id client_secret) = Ok data
                   /\ get data "access_token" = Throw e) ->
  getToken w = (Throw e, after_exchange w (token_request client_id client_secret)).
Proof.
  unfold cache_miss. intros Hmiss Hid Hsecret Hreply.
  unfold getToken, bind, Date_now, read, lift, fetch_json, throw.
  run_step. rewrite Hmiss. run_step. rewrite Hid, Hsecret. run_step.
  destruct Hreply as [Hreply | [data [Hreply Htok]]].
  - rewrite Hreply. reflexivity.
  - rewrite Hreply, Htok. reflexivity.
Qed.

(** Every way a call of [getToken] can go. *)
Lemma getToken_outcomes (w : World) :
  (truthy (token (tokenCache w)) = true
   /\ nlt (Num (clock (ticks w))) (expiry (tokenCache w)) = true
   /\ getToken w = (Ok (token (tokenCache w)), after_hit w))
  \/ (cache_miss w
      /\ exists e, getToken w = (Throw e, after_hit w)
                   /\ nullish (CONFIG w) = true)
  \/ (cache_miss w
      /\ exists client_id client_secret e,
           get (CONFIG w) "twitch_client_id" = Ok client_id
           /\ get (CONFIG w) "twitch_client_secret" = Ok client_secret
           /\ getToken w
              = (Throw e, after_exchange w (token_request client_id client_secret)))
  \/ (cache_miss w
      /\ exists client_id client_secret data tok,
           get (CONFIG w) "twitch_client_id" = Ok client_id
           /\ get (CONFIG w) "twitch_client_secret" = Ok client_secret
           /\ reply (requests w) (token_request client_id client_secret) = Ok data
           /\ get data "access_token" = Ok tok
           /\ truthy tok = true
           /\ getToken w
              = (Ok tok,
                 after_refresh w (token_request client_id client_secret) tok
                   (prop data "expires_in"))).
Proof.
  destruct (cache_hit_or_miss w) as [[Htok Hexp] | Hmiss].
  { left. split; [exact Htok|]. split; [exact Hexp|]. now apply getToken_hit. }
  right.
  destruct (get (CONFIG w) "twitch_client_id") as [client_id|e] eqn:Hid.
  2:{ left. split; [exact Hmiss|]. exists e. split.
      - apply getToken_config_throws; auto.
      - destruct (CONFIG w); simpl in Hid; try discriminate; reflexivity. }
  destruct (get (CONFIG w) "twitch_client_secret") as [client_secret|e] eqn:Hsecret.
  2:{ left. split; [exact Hmiss|]. exists e. split.
      - apply getToken_config_throws; eauto.
      - destruct (CONFIG w); simpl in Hsecret; try discriminate; reflexivity. }
  right.
  destruct (reply (requests w) (token_request client_id client_secret))
    as [data|e] eqn:Hreply.
  2:{ left. split; [exact Hmiss|]. exists client_id, client_secret, e.
      repeat split; auto. apply getToken_reply_throws; auto. }
  destruct (get data "access_token") as [tok|e] eqn:Htok.
  2:{ left. split; [exact Hmiss|]. exists client_id, client_secret, e.
      repeat split; auto. apply getToken_reply_throws; eauto. }
  destruct (truthy tok) eqn:Htruthy.
  - right. split; [exact Hmiss|]. exists client_id, client_secret, data, tok.
    repeat split; auto.
    destruct (get_Ok_prop _ _ _ Htok) as [Hnn _].
    apply (getToken_exchange_granted w client_id client_secret data tok); auto.
    now apply get_prop.
  - left. split; [exact Hmiss|].
    exists client_id, client_secret,
      (Error ("Failed to fetch Twitch token: " ++ JSON_stringify data)).
    repeat split; auto. eapply getToken_exchange_denied; eauto.
Qed.

(** X1.  A call of [getToken] that throws leaves the token cache exactly
    as it found it, whatever made it throw: a cached token is not lost to
    a failed refresh. *)
Theorem getToken_failure_keeps_cache (w w' : World) (e : exn) :
  getToken w = (Throw e, w') -> tokenCache w' = tokenCache w.
Proof.
  intros Hrun.
  destruct (getToken_outcomes w)
    as [(_ & _ & H) | [[_ (e1 & H & _)] | [[_ (i & s & e1 & _ & _ & H)]
       | [_ (i & s & d & t & _ & _ & _ & _ & _ & H)]]]];
    rewrite H in Hrun; try discriminate;
    injection Hrun as _ <-; reflexivity.
Qed.

(** X2.  The token that [getToken] returns is truthy and is the one the
    cache holds when the call ends. *)
Theorem getToken_returns_cached_truthy (w w' : World) (tok : value) :
  getToken w = (Ok tok, w') ->
  truthy tok = true /\ token (tokenCache w') = tok.
Proof.
  intros Hrun.
  destruct (getToken_outcomes w)
    as [(Ht & _ & H) | [[_ (e1 & H & _)] | [[_ (i & s & e1 & _ & _ & H)]
       | [_ (i & s & d & t & _ & _ & _ & _ & Ht & H)]]]];
    rewrite H in Hrun; try discriminate;
    injection Hrun as <- <-; split; (exact Ht || reflexivity).
Qed.

(** X3.  The cached token is used strictly before its expiry only.  When
    [CONFIG] is an object or any value other than [null] and [undefined],
    and the cache holds no token, or the expiry is [NaN], or the clock reads
    the expiry itself or a later time, the call sends the credential
    exchange built from the two fields of [CONFIG], whatever the answer to
    it turns out to be. *)
Theorem getToken_at_expiry_exchanges (w : World) :
  nullish (CONFIG w) = false ->
  truthy (token (tokenCache w)) = false
  \/ expiry (tokenCache w) = NaN
  \/ (exists t, expiry (tokenCache w) = Num t /\ (t <= clock (ticks w))%Z) ->
  requests (snd (getToken w))
  = (requests w
     ++ [token_request (prop (CONFIG w) "twitch_client_id")
                       (prop (CONFIG w) "twitch_client_secret")])%list.
Proof.
  intros Hconfig Hstale.
  pose proof (get_prop (CONFIG w) "twitch_client_id" Hconfig) as Hid.
  pose proof (get_prop (CONFIG w) "twitch_client_secret" Hconfig) as Hsecret.
  assert (Hmiss : cache_miss w).
  { unfold cache_miss. destruct Hstale as [H | [H | (t & H & Ht)]].
    - now rewrite H.
    - rewrite H. apply andb_false_r.
    - rewrite H. simpl. apply andb_false_iff. right. now apply Z.ltb_ge. }
  destruct (getToken_outcomes w)
    as [(Ht & Hexp & H) | [[_ (e1 & H & Hnull)] | [[_ (i & s & e1 & Hi & Hs & H)]
       | [_ (i & s & d & t & Hi & Hs & _ & _ & _ & H)]]]].
  - unfold cache_miss in Hmiss. rewrite Ht, Hexp in Hmiss. discriminate.
  - congruence.
  - rewrite H. simpl. congruence.
  - rewrite H. simpl. congruence.
Qed.

(** X4.  When the body that grants a token has no [expires_in], the
    expiry stored with the token is [NaN]; no clock reading is before it, so
    the token is never reused: every later call exchanges the credentials
    again. *)
Theorem getToken_without_lifetime_never_reused (w : World)
  (client_id client_secret data tok : value) :
  cache_miss w ->
  get (CONFIG w) "twitch_client_id" = Ok client_id ->
  get (CONFIG w) "twitch_client_secret" = Ok client_secret ->
  reply (requests w) (token_request client_id client_secret) = Ok data ->
  get data "access_token" = Ok tok ->
  truthy tok = true ->
  prop data "expires_in" = VUndefined ->
  exists w',
    getToken w = (Ok tok, w')
    /\ tokenCache w' = mkTokenCache tok NaN
    /\ forall w2, tokenCache w2 = tokenCache w' -> cache_miss w2.
Proof.
  intros Hmiss Hid Hsecret Hreply Htok Htruthy Hnone.
  destruct (get_Ok_prop _ _ _ Htok) as [Hnn _].
  exists (after_refresh w (token_request client_id client_secret) tok
            (prop data "expires_in")).
  split.
  { apply (getToken_exchange_granted w client_id client_secret data tok); auto.
    now apply get_prop. }
  unfold after_refresh. cbn [tokenCache]. rewrite Hnone.
  split; [reflexivity|].
  intros w2 Hw2. unfold cache_miss. rewrite Hw2. cbn [expiry token].
  apply andb_false_r.
Qed.

(** X5.  The expiry is set 60 seconds before the end of the lifetime.  A
    token granted for 60 seconds or less is therefore already expired when
    it is stored: a later call, made when the clock has not gone back,
    exchanges the credentials again. *)
Theorem getToken_short_lifetime_expired (w : World)
  (client_id client_secret data tok : value) (n : Z) :
  cache_miss w ->
  get (CONFIG w) "twitch_client_id" = Ok client_id ->
  get (CONFIG w) "twitch_client_secret" = Ok client_secret ->
  reply (requests w) (token_request client_id client_secret) = Ok data ->
  get data "access_token" = Ok tok ->
  truthy tok = true ->
  prop data "expires_in" = VNum n ->
  (n <= 60)%Z ->
  exists w',
    getToken w = (Ok tok, w')
    /\ forall w2, tokenCache w2 = tokenCache w' ->
                  (clock (ticks w) <= clock (ticks w2))%Z ->
                  cache_miss w2.
Proof.
  intros Hmiss Hid Hsecret Hreply Htok Htruthy Hn Hshort.
  destruct (get_Ok_prop _ _ _ Htok) as [Hnn _].
  exists (after_refresh w (token_request client_id client_secret) tok
            (prop data "expires_in")).
  split.
  { apply (getToken_exchange_granted w client_id client_secret data tok); auto.
    now apply get_prop. }
  intros w2 Hw2 Hclock. unfold cache_miss. rewrite Hw2.
  unfold after_refresh. cbn [tokenCache expiry token]. rewrite Hn. simpl.
  apply andb_false_iff. right. apply Z.ltb_ge. lia.
Qed.

(** X6.  When [CONFIG] is [null] (a [config.json] that holds [null] makes
    it so) and no usable token is cached, [getToken] throws a [TypeError]
    while building the URL: no request is sent and the cache is untouched. *)
Theorem getToken_null_CONFIG_throws (w : World) :
  cache_miss w ->
  nullish (CONFIG w) = true ->
  exists msg w',
    getToken w = (Throw (TypeError msg), w')
    /\ requests w' = requests w
    /\ tokenCache w' = tokenCache w.
Proof.
  intros Hmiss Hnull.
  assert (Hget : exists msg, get (CONFIG w) "twitch_client_id" = Throw (TypeError msg)).
  { destruct (CONFIG w); try discriminate; simpl; eauto. }
  destruct Hget as [msg Hget].
  exists msg, (after_hit w). split; [|split; reflexivity].
  apply getToken_config_throws; auto.
Qed.

(** ** Live-Status Checker *)

(** However the loop ends, it has sent the queries of the first [k]
    batches and has changed nothing but the list of requests. *)
Lemma checkLive_loop_prefix (names : list string) (hdrs : list (string * value))
  (i : nat) (acc : list value) (w : World) :
  exists k,
    k <= length (batches_from names i)
    /\ snd (checkLive_loop names hdrs i acc w)
       = set_requests
           (requests w
            ++ map (streams_request hdrs) (firstn k (batches_from names i)))%list w
    /\ (forall recs, fst (checkLive_loop names hdrs i acc w) = Ok recs ->
                     k = length (batches_from names i))
    /\ (forall e, fst (checkLive_loop names hdrs i acc w) = Throw e -> 1 <= k).
Proof.
  remember (length names - i) as n eqn:Hn. revert i acc w Hn.
  induction n as [n IH] using lt_wf_ind. intros i acc w Hn.
  destruct (lt_dec i (length names)) as [Hlt|Hge].
  - rewrite (checkLive_loop_step names hdrs i acc w Hlt).
    rewrite (batches_from_step names i Hlt).
    unfold fetch_json.
    destruct (reply (requests w) _) as [data|e].
    + destruct (collect data acc) as [acc'|e].
      * destruct (IH (length names - (i + 100)) ltac:(lia) (i + 100) acc'
                    (set_requests
                       (requests w
                        ++ [streams_request hdrs (slice names i (i + 100))])%list w)
                    eq_refl) as (k & Hk & Hsnd & Hok & Hthrow).
        exists (S k). split; [simpl; lia|]. split.
        { rewrite Hsnd. simpl. now rewrite <- app_assoc. }
        split.
        { intros recs Hrecs. simpl. f_equal. now apply (Hok recs). }
        intros; lia.
      * exists 1. split; [simpl; lia|]. split; [reflexivity|].
        split; [discriminate | auto].
    + exists 1. split; [simpl; lia|]. split; [reflexivity|].
      split; [discriminate | auto].
  - rewrite (checkLive_loop_done names hdrs i acc w) by lia.
    rewrite batches_from_done by lia.
    exists 0. split; [simpl; lia|]. split.
    { simpl. now rewrite app_nil_r, set_requests_same. }
    split; [reflexivity | discriminate].
Qed.

Lemma or_else_defaulted (v : value) : defaulted (or_else v (VStr "")).
Proof. unfold defaulted, or_else. destruct (truthy v) eqn:E; auto. Qed.

Lemma live_record_shape (s r : value) : live_record s = Ok r -> record_shape r.
Proof.
  unfold live_record.
  destruct (get s "user_name"), (get s "title"), (get s "game_name"),
    (get s "started_at"); try discriminate.
  intros H. injection H as <-.
  eexists _, _, _, _. split; [reflexivity|].
  split; apply or_else_defaulted.
Qed.

Lemma push_streams_shape (entries acc acc' : list value) :
  Forall record_shape acc ->
  push_streams entries acc = Ok acc' ->
  Forall record_shape acc'.
Proof.
  revert acc. induction entries as [|s rest IH]; intros acc Hacc Hrun; simpl in Hrun.
  - now injection Hrun as <-.
  - destruct (live_record s) as [r|e] eqn:Hr; [|discriminate].
    apply (IH (acc ++ [r])%list); [|exact Hrun].
    apply Forall_app. split; [exact Hacc|].
    constructor; [|constructor]. now apply (live_record_shape s).
Qed.

Lemma collect_shape (data : value) (acc acc' : list value) :
  Forall record_shape acc ->
  collect data acc = Ok acc' ->
  Forall record_shape acc'.
Proof.
  unfold collect. intros Hacc Hrun.
  destruct (get data "data") as [d|e]; [|discriminate].
  destruct (truthy d).
  - destruct (iterate d) as [entries|e]; [|discriminate].
    now apply (push_streams_shape entries acc).
  - now injection Hrun as <-.
Qed.

Lemma checkLive_loop_shape (names : list string) (hdrs : list (string * value))
  (i : nat) (acc : list value) (w : World) (recs : list value) (w' : World) :
  Forall record_shape acc ->
  checkLive_loop names hdrs i acc w = (Ok recs, w') ->
  Forall record_shape recs.
Proof.
  remember (length names - i) as n eqn:Hn. revert i acc w Hn.
  induction n as [n IH] using lt_wf_ind. intros i acc w Hn Hacc Hrun.
  destruct (lt_dec i (length names)) as [Hlt|Hge].
  - rewrite (checkLive_loop_step names hdrs i acc w Hlt) in Hrun.
    unfold fetch_json in Hrun.
    destruct (reply (requests w) _) as [data|e]; [|discriminate].
    destruct (collect data acc) as [acc'|e] eqn:Hcollect; [|discriminate].
    eapply (IH (length names - (i + 100)) ltac:(lia) (i + 100) acc');
      [reflexivity | | exact Hrun].
    now apply (collect_shape data acc).
  - rewrite (checkLive_loop_done names hdrs i acc w) in Hrun by lia.
    now injection Hrun as <- _.
Qed.

(** Every way a call of [checkLive] can go, from the token step on. *)
Lemma checkLive_after_token (names : list string) (w : World) :
  (exists e w1, getToken w = (Throw e, w1) /\ checkLive names w = (Throw e, w1))
  \/ (exists tok w1 e,
        getToken w = (Ok tok, w1)
        /\ get (CONFIG w1) "twitch_client_id" = Throw e
        /\ checkLive names w = (Throw e, w1))
  \/ (exists tok w1 client_id,
        getToken w = (Ok tok, w1)
        /\ get (CONFIG w1) "twitch_client_id" = Ok client_id
        /\ checkLive names w
           = checkLive_loop names (stream_headers client_id tok) 0 [] w1).
Proof.
  unfold checkLive, bind, read, lift.
  destruct (getToken w) as [[tok|e] w1].
  - right. destruct (get (CONFIG w1) "twitch_client_id") as [client_id|e] eqn:Hid.
    + right. exists tok, w1, client_id. auto.
    + left. exists tok, w1, e. auto.
  - left. exists e, w1. auto.
Qed.

(** What [getToken] leaves alone. *)
Lemma getToken_frame (w : World) :
  CONFIG (snd (getToken w)) = CONFIG w
  /\ files (snd (getToken w)) = files w
  /\ exitCode (snd (getToken w)) = exitCode w.
Proof.
  destruct (getToken_outcomes w)
    as [(_ & _ & H) | [[_ (e1 & H & _)] | [[_ (i & s & e1 & _ & _ & H)]
       | [_ (i & s & d & t & _ & _ & _ & _ & _ & H)]]]];
    rewrite H; repeat split; reflexivity.
Qed.

(** X7.  Whatever the replies, the streams queries that [checkLive] sends
    are those of the first [k] batches, in batch order and one each: no
    batch is retried or skipped.  A call that completes has queried every
    batch; a call that throws in the loop stops at the batch that failed. *)
Theorem checkLive_no_retry (names : list string) (w w1 : World)
  (tok client_id : value) :
  getToken w = (Ok tok, w1) ->
  get (CONFIG w1) "twitch_client_id" = Ok client_id ->
  exists k,
    k <= length (batches names)
    /\ requests (snd (checkLive names w))
       = (requests w1
          ++ map (streams_request (stream_headers client_id tok))
                 (firstn k (batches names)))%list
    /\ (forall recs, fst (checkLive names w) = Ok recs -> k = length (batches names))
    /\ (forall e, fst (checkLive names w) = Throw e -> 1 <= k).
Proof.
  intros Htok Hid. rewrite (checkLive_run names w w1 tok client_id Htok Hid).
  destruct (checkLive_loop_prefix names (stream_headers client_id tok) 0 [] w1)
    as (k & Hk & Hsnd & Hok & Hthrow).
  exists k. split; [exact Hk|]. split; [|split; assumption].
  unfold batches. now rewrite Hsnd.
Qed.

(** What [checkLive] leaves alone. *)
Lemma checkLive_frame (names : list string) (w : World) :
  files (snd (checkLive names w)) = files w
  /\ CONFIG (snd (checkLive names w)) = CONFIG w
  /\ exitCode (snd (checkLive names w)) = exitCode w.
Proof.
  destruct (getToken_frame w) as (Hc & Hf & Hx).
  destruct (checkLive_after_token names w)
    as [(e & w1 & Ht & H) | [(tok & w1 & e & Ht & _ & H)
       | (tok & w1 & client_id & Ht & _ & H)]];
    rewrite H; rewrite Ht in Hc, Hf, Hx; simpl in Hc, Hf, Hx.
  - auto.
  - auto.
  - destruct (checkLive_loop_prefix names (stream_headers client_id tok) 0 [] w1)
      as (k & _ & Hsnd & _).
    rewrite Hsnd. simpl. auto.
Qed.

(** X8.  [checkLive] writes no file and leaves [CONFIG] and the exit code
    as they are, whether it returns or throws. *)
Theorem checkLive_writes_nothing (names : list string) (w : World) :
  files (snd (checkLive names w)) = files w
  /\ CONFIG (snd (checkLive names w)) = CONFIG w
  /\ exitCode (snd (checkLive names w)) = exitCode w.
Proof. exact (checkLive_frame names w). Qed.

(** X9.  Every record that [checkLive] returns is an object with the four
    fields username, title, game and started_at, in that order, whose title
    and game are the empty string or a truthy value: a missing, [null] or
    otherwise falsy title or game never reaches the output. *)
Theorem checkLive_records_shape (names : list string) (w w' : World)
  (recs : list value) :
  checkLive names w = (Ok recs, w') -> Forall record_shape recs.
Proof.
  intros Hrun.
  destruct (checkLive_after_token names w)
    as [(e & w1 & _ & H) | [(tok & w1 & e & _ & _ & H)
       | (tok & w1 & client_id & _ & _ & H)]];
    rewrite H in Hrun; try discriminate.
  eapply checkLive_loop_shape; [constructor | exact Hrun].
Qed.

(** X10.  On an empty roster [checkLive] still takes the token step, then
    returns no record without sending any streams query. *)
Theorem checkLive_empty_roster (w w1 : World) (tok client_id : value) :
  getToken w = (Ok tok, w1) ->
  get (CONFIG w1) "twitch_client_id" = Ok client_id ->
  checkLive [] w = (Ok [], w1).
Proof.
  intros Htok Hid. rewrite (checkLive_run [] w w1 tok client_id Htok Hid).
  apply checkLive_loop_done. simpl. lia.
Qed.

(** X11.  With a token cached and not yet expired, a call of [checkLive]
    that completes has sent the streams queries only, one per batch, each
    with the cached token in its Authorization header and the configured
    client id in its Client-ID header; the cache is unchanged. *)
Theorem checkLive_with_cached_token (names : list string) (w w' : World)
  (client_id : value) (recs : list value) :
  truthy (token (tokenCache w)) = true ->
  nlt (Num (clock (ticks w))) (expiry (tokenCache w)) = true ->
  get (CONFIG w) "twitch_client_id" = Ok client_id ->
  checkLive names w = (Ok recs, w') ->
  requests w'
  = (requests w
     ++ map (streams_request
               [("Client-ID", client_id);
                ("Authorization",
                 VStr ("Bearer " ++ ToString (token (tokenCache w))))])
            (batches names))%list
  /\ tokenCache w' = tokenCache w.
Proof.
  intros Htok Hexp Hid Hrun.
  rewrite (checkLive_run names w (after_hit w) (token (tokenCache w)) client_id
             (getToken_hit w Htok Hexp) Hid) in Hrun.
  apply checkLive_loop_requests in Hrun. rewrite Hrun.
  split; reflexivity.
Qed.

(** ** Snapshot Writer and [main] *)

Lemma main_sheet_throws (w : World) (e : exn) :
  XLSX_rows EXCEL_FILE = Throw e -> main w = (Ok tt, failed_run w e).
Proof.
  intros Hrows. unfold main, try_catch, bind, lift. now rewrite Hrows.
Qed.

Lemma main_no_names (w : World) (rows : sheet) :
  XLSX_rows EXCEL_FILE = Ok rows ->
  loadUsernames rows = [] ->
  main w = (Ok tt, skipped_run w).
Proof.
  intros Hrows Hnames. unfold main, try_catch, bind, lift.
  now rewrite Hrows, Hnames.
Qed.

Lemma main_checkLive_throws (w w1 : World) (rows : sheet) (e : exn) :
  XLSX_rows EXCEL_FILE = Ok rows ->
  loadUsernames rows <> [] ->
  checkLive (loadUsernames rows) w = (Throw e, w1) ->
  main w = (Ok tt, failed_run w1 e).
Proof.
  intros Hrows Hnames Hrun. unfold main, try_catch, bind, lift. rewrite Hrows.
  destruct (loadUsernames rows) as [|name names] eqn:E; [contradiction|].
  run_step. now rewrite Hrun.
Qed.

Lemma main_checkLive_returns (w w1 : World) (rows : sheet) (liveList : list value) :
  XLSX_rows EXCEL_FILE = Ok rows ->
  loadUsernames rows <> [] ->
  checkLive (loadUsernames rows) w = (Ok liveList, w1) ->
  writable w1 liveList ->
  main w = (Ok tt, written w1 liveList).
Proof.
  intros Hrows Hnames Hrun Hwrite. unfold main, try_catch, bind, lift. rewrite Hrows.
  destruct (loadUsernames rows) as [|name names] eqn:E; [contradiction|].
  run_step. rewrite Hrun. run_step.
  now rewrite (writeJSON_writes liveList w1 Hwrite).
Qed.

Lemma main_write_throws (w w1 : World) (rows : sheet) (liveList : list value)
  (e : exn) (remains : option string) :
  XLSX_rows EXCEL_FILE = Ok rows ->
  loadUsernames rows <> [] ->
  checkLive (loadUsernames rows) w = (Ok liveList, w1) ->
  write_failure (files w1) OUTPUT_FILE (output_text w1 liveList) = Some (e, remains) ->
  main w = (Ok tt, failed_run (write_failed w1 remains) e).
Proof.
  intros Hrows Hnames Hrun Hwrite. unfold main, try_catch, bind, lift. rewrite Hrows.
  destruct (loadUsernames rows) as [|name names] eqn:E; [contradiction|].
  run_step. rewrite Hrun. run_step.
  now rewrite (writeJSON_throws liveList w1 e remains Hwrite).
Qed.

(** Every way a run of [main] can go. *)
Lemma main_outcomes (w : World) :
  (exists e, XLSX_rows EXCEL_FILE = Throw e /\ main w = (Ok tt, failed_run w e))
  \/ (exists rows, XLSX_rows EXCEL_FILE = Ok rows /\ loadUsernames rows = []
                   /\ main w = (Ok tt, skipped_run w))
  \/ (exists rows e w1,
        XLSX_rows EXCEL_FILE = Ok rows
        /\ checkLive (loadUsernames rows) w = (Throw e, w1)
        /\ main w = (Ok tt, failed_run w1 e))
  \/ (exists rows liveList w1,
        XLSX_rows EXCEL_FILE = Ok rows
        /\ checkLive (loadUsernames rows) w = (Ok liveList, w1)
        /\ writable w1 liveList
        /\ main w = (Ok tt, written w1 liveList))
  \/ (exists rows liveList w1 e remains,
        XLSX_rows EXCEL_FILE = Ok rows
        /\ checkLive (loadUsernames rows) w = (Ok liveList, w1)
        /\ write_failure (files w1) OUTPUT_FILE (output_text w1 liveList)
           = Some (e, remains)
        /\ main w = (Ok tt, failed_run (write_failed w1 remains) e)).
Proof.
  destruct (XLSX_rows EXCEL_FILE) as [rows|e] eqn:Hrows.
  2:{ left. exists e. split; [reflexivity|]. now apply main_sheet_throws. }
  right.
  assert (Hdec : loadUsernames rows = [] \/ loadUsernames rows <> [])
    by (destruct (loadUsernames rows); [left | right]; congruence).
  destruct Hdec as [Hnames | Hne].
  { left. exists rows. repeat split; auto. now apply (main_no_names w rows). }
  right.
  destruct (checkLive (loadUsernames rows) w) as [[liveList|e] w1] eqn:Hrun.
  2:{ left. exists rows, e, w1.
      repeat split; auto. now apply (main_checkLive_throws w w1 rows). }
  right.
  destruct (write_failure (files w1) OUTPUT_FILE (output_text w1 liveList))
    as [[e remains]|] eqn:Hwrite.
  - right. exists rows, liveList, w1, e, remains.
    repeat split; auto. now apply (main_write_throws w w1 rows liveList).
  - left. exists rows, liveList, w1.
    repeat split; auto. now apply (main_checkLive_returns w w1 rows liveList).
Qed.

(** X12.  When the workbook cannot be read, [main] prints the error's
    message after "Error: " and sets the exit code to 1; it has not read
    the clock, sent a request or written a file. *)
Theorem main_unreadable_sheet (w : World) (e : exn) :
  XLSX_rows EXCEL_FILE = Throw e ->
  exists w',
    main w = (Ok tt, w')
    /\ console w' = (console w ++ [(Err, ("Error: " ++ message_of e)%string)])%list
    /\ exitCode w' = Some 1%Z
    /\ requests w' = requests w
    /\ ticks w' = ticks w
    /\ files w' = files w.
Proof.
  intros Hrows. exists (failed_run w e).
  split; [now apply main_sheet_throws|]. repeat split; reflexivity.
Qed.

(** X13.  When no row of the sheet passes the inclusion rule, [main] only
    prints a warning: it takes no token, sends no request, writes no file
    and leaves the exit code as it is. *)
Theorem main_empty_roster (w : World) (rows : sheet) :
  XLSX_rows EXCEL_FILE = Ok rows ->
  loadUsernames rows = [] ->
  exists w',
    main w = (Ok tt, w')
    /\ console w'
       = (console w ++ [(Warn, "No valid streamers found in spreadsheet")])%list
    /\ exitCode w' = exitCode w
    /\ requests w' = requests w
    /\ tokenCache w' = tokenCache w
    /\ ticks w' = ticks w
    /\ files w' = files w.
Proof.
  intros Hrows Hnames. exists (skipped_run w).
  split; [now apply (main_no_names w rows)|]. repeat split; reflexivity.
Qed.

(** X14.  [main] never throws.  It either leaves the exit code as it was,
    or it sets it to 1, and then the last line it printed is an error line
    that starts with "Error: ".  This holds of the runs whose write fails
    as of the others. *)
Theorem main_never_throws (w : World) :
  exists w',
    main w = (Ok tt, w')
    /\ (exitCode w' = exitCode w
        \/ (exitCode w' = Some 1%Z
            /\ exists earlier msg,
                 console w' = (earlier ++ [(Err, ("Error: " ++ msg)%string)])%list)).
Proof.
  destruct (main_outcomes w)
    as [(e & _ & H) | [(rows & _ & _ & H) | [(rows & e & w1 & _ & _ & H)
       | [(rows & liveList & w1 & _ & Hrun & _ & H)
         | (rows & liveList & w1 & e & remains & _ & _ & _ & H)]]]];
    rewrite H; eexists; (split; [reflexivity|]).
  - right. split; [reflexivity|]. eexists _, _. reflexivity.
  - left. reflexivity.
  - right. split; [reflexivity|]. eexists _, _. reflexivity.
  - left. destruct (checkLive_frame (loadUsernames rows) w) as (_ & _ & Hx).
    rewrite Hrun in Hx. exact Hx.
  - right. split; [reflexivity|]. eexists _, _. reflexivity.
Qed.

(** X15.  The only file a run of [main] can change is the output file:
    every other file is, after the run, as it was before, whether the run
    succeeds, fails before the write or fails in the write. *)
Theorem main_writes_only_output_file (w : World) (name : string) :
  name <> OUTPUT_FILE ->
  files (snd (main w)) name = files w name.
Proof.
  intros Hname. apply String.eqb_neq in Hname.
  destruct (main_outcomes w)
    as [(e & _ & H) | [(rows & _ & _ & H) | [(rows & e & w1 & _ & Hrun & H)
       | [(rows & liveList & w1 & _ & Hrun & _ & H)
         | (rows & liveList & w1 & e & remains & _ & Hrun & _ & H)]]]];
    rewrite H; try reflexivity;
    destruct (checkLive_frame (loadUsernames rows) w) as (Hf & _ & _);
    rewrite Hrun in Hf; simpl in Hf; simpl; rewrite ?Hname, Hf; reflexivity.
Qed.

(** X16.  On a disk where the output file can be written, a run of [main]
    that fails, that is, one that sets the exit code to 1 when it was not,
    writes nothing: every file, the previous snapshot among them, is as it
    was before the run. *)
Theorem main_failure_keeps_files (w : World) :
  (forall text, write_failure (files w) OUTPUT_FILE text = None) ->
  exitCode w <> Some 1%Z ->
  exitCode (snd (main w)) = Some 1%Z ->
  files (snd (main w)) = files w.
Proof.
  intros Hdisk Hbefore Hafter.
  destruct (main_outcomes w)
    as [(e & _ & H) | [(rows & _ & _ & H) | [(rows & e & w1 & _ & Hrun & H)
       | [(rows & liveList & w1 & _ & Hrun & _ & H)
         | (rows & liveList & w1 & e & remains & _ & Hrun & Hwrite & H)]]]];
    rewrite H in *; try reflexivity;
    destruct (checkLive_frame (loadUsernames rows) w) as (Hf & _ & Hx);
    rewrite Hrun in Hf, Hx; simpl in Hf, Hx.
  - exact Hf.
  - simpl in Hafter. congruence.
  - rewrite Hf, Hdisk in Hwrite. discriminate.
Qed.

(** X17.  When the roster is not empty, [checkLive] returns and the write
    succeeds, [main] overwrites the output file with the snapshot of the
    returned records, stamped with the time read after the last query,
    prints the number of records, sends nothing more and leaves the exit
    code as it was. *)
Theorem main_success (w w1 : World) (rows : sheet) (liveList : list value) :
  XLSX_rows EXCEL_FILE = Ok rows ->
  loadUsernames rows <> [] ->
  checkLive (loadUsernames rows) w = (Ok liveList, w1) ->
  writable w1 liveList ->
  exists w',
    main w = (Ok tt, w')
    /\ files w' OUTPUT_FILE
       = Some (JSON_stringify_indent
                 (snapshot (toISOString (clock (ticks w1))) liveList))
    /\ console w'
       = (console w1
          ++ [(Log, ("Wrote live.json ("
                     ++ NumberToString (Z.of_nat (length liveList))
                     ++ " live)")%string)])%list
    /\ requests w' = requests w1
    /\ exitCode w' = exitCode w.
Proof.
  intros Hrows Hnames Hrun Hwrite. exists (written w1 liveList).
  split; [now apply (main_checkLive_returns w w1 rows liveList)|].
  repeat split; try reflexivity.
  destruct (checkLive_frame (loadUsernames rows) w) as (_ & _ & Hx).
  rewrite Hrun in Hx. exact Hx.
Qed.

(** X18.  [writeJSON] throws exactly when its write fails, with the error
    of the write and without printing; otherwise it returns the snapshot,
    leaves its text in the output file, whatever the file held, and prints
    one line with the number of records.  Either way it reads the clock
    once, sends no request and leaves every other file, the token cache,
    [CONFIG] and the exit code as they were. *)
Theorem writeJSON_touches_output_only (liveList : list value) (w : World) :
  (forall name, name <> OUTPUT_FILE ->
                files (snd (writeJSON liveList w)) name = files w name)
  /\ ticks (snd (writeJSON liveList w)) = S (ticks w)
  /\ requests (snd (writeJSON liveList w)) = requests w
  /\ tokenCache (snd (writeJSON liveList w)) = tokenCache w
  /\ CONFIG (snd (writeJSON liveList w)) = CONFIG w
  /\ exitCode (snd (writeJSON liveList w)) = exitCode w
  /\ match write_failure (files w) OUTPUT_FILE (output_text w liveList) with
     | None =>
         fst (writeJSON liveList w)
         = Ok (snapshot (toISOString (clock (ticks w))) liveList)
         /\ files (snd (writeJSON liveList w)) OUTPUT_FILE
            = Some (output_text w liveList)
         /\ console (snd (writeJSON liveList w))
            = (console w
               ++ [(Log, ("Wrote live.json ("
                          ++ NumberToString (Z.of_nat (length liveList))
                          ++ " live)")%string)])%list
     | Some (e, remains) =>
         fst (writeJSON liveList w) = Throw e
         /\ files (snd (writeJSON liveList w)) OUTPUT_FILE = remains
         /\ console (snd (writeJSON liveList w)) = console w
     end.
Proof.
  destruct (write_failure (files w) OUTPUT_FILE (output_text w liveList))
    as [[e remains]|] eqn:Hwrite.
  - rewrite (writeJSON_throws liveList w e remains Hwrite).
    repeat split; try reflexivity.
    intros name Hname. simpl. apply String.eqb_neq in Hname. now rewrite Hname.
  - rewrite (writeJSON_writes liveList w Hwrite).
    repeat split; try reflexivity.
    intros name Hname. simpl. apply String.eqb_neq in Hname. now rewrite Hname.
Qed.

(** X26.  When the roster is not empty and [checkLive] returns but the
    write throws, [main] prints the write's message after "Error: " and
    sets the exit code to 1, without the line that reports a snapshot; the
    output file holds what the failed write left of it. *)
Theorem main_write_failure (w w1 : World) (rows : sheet) (liveList : list value)
  (e : exn) (remains : option string) :
  XLSX_rows EXCEL_FILE = Ok rows ->
  loadUsernames rows <> [] ->
  checkLive (loadUsernames rows) w = (Ok liveList, w1) ->
  write_failure (files w1) OUTPUT_FILE (output_text w1 liveList) = Some (e, remains) ->
  exists w',
    main w = (Ok tt, w')
    /\ console w' = (console w1 ++ [(Err, ("Error: " ++ message_of e)%string)])%list
    /\ exitCode w' = Some 1%Z
    /\ files w' OUTPUT_FILE = remains
    /\ requests w' = requests w1.
Proof.
  intros Hrows Hnames Hrun Hwrite. exists (failed_run (write_failed w1 remains) e).
  split; [now apply (main_write_throws w w1 rows liveList)|].
  repeat split; reflexivity.
Qed.

(** X19.  The Config Resolver changes [CONFIG] and the console only, and
    what it leaves in [CONFIG] does not depend on what was there before. *)
Theorem init_CONFIG_frame (w : World) (old : value) :
  tokenCache (snd (init_CONFIG w)) = tokenCache w
  /\ ticks (snd (init_CONFIG w)) = ticks w
  /\ requests (snd (init_CONFIG w)) = requests w
  /\ files (snd (init_CONFIG w)) = files w
  /\ exitCode (snd (init_CONFIG w)) = exitCode w
  /\ CONFIG (snd (init_CONFIG (set_CONFIG old w))) = CONFIG (snd (init_CONFIG w)).
Proof.
  unfold init_CONFIG, bind, try_catch, modify, readFileSync, lift, console_print.
  destruct (truthy (env_value "TWITCH_CLIENT_ID")
            && truthy (env_value "TWITCH_CLIENT_SECRET")).
  - repeat split; reflexivity.
  - cbn [files set_CONFIG].
    destruct (files w "config.json") as [text|].
    + destruct (JSON_parse text); repeat split; reflexivity.
    + repeat split; reflexivity.
Qed.

End Further.

(** ** Roster Loader *)

Lemma trimStart_blank (s : string) : blank s = true -> trimStart s = "".
Proof.
  induction s as [|c r IH]; simpl; [reflexivity|].
  unfold blank. simpl. intros H. apply andb_true_iff in H.
  destruct H as [Hc Hr]. rewrite Hc. now apply IH.
Qed.

Lemma trim_blank (s : string) : blank s = true -> trim s = "".
Proof. intros H. unfold trim. now rewrite (trimStart_blank s H). Qed.

Lemma trimEnd_solid (s : string) : solid s = true -> trimEnd s = s.
Proof.
  induction s as [|c r IH]; simpl; [reflexivity|].
  unfold solid. simpl. intros H. apply andb_true_iff in H.
  destruct H as [Hc Hr]. apply negb_true_iff in Hc.
  rewrite (IH Hr). destruct r; [now rewrite Hc | reflexivity].
Qed.

Lemma trim_solid (s : string) : solid s = true -> trim s = s.
Proof.
  intros H. unfold trim.
  assert (Hstart : trimStart s = s).
  { destruct s as [|c r]; [reflexivity|]. simpl.
    unfold solid in H. simpl in H. apply andb_true_iff in H.
    destruct H as [Hc _]. apply negb_true_iff in Hc. now rewrite Hc. }
  rewrite Hstart. now apply trimEnd_solid.
Qed.

Lemma string_of_uint_solid (d : Decimal.uint) :
  solid (NilEmpty.string_of_uint d) = true.
Proof. induction d; simpl; [reflexivity | exact IHd ..]. Qed.

Lemma NumberToString_solid (z : Z) :
  solid (NumberToString z) = true /\ NumberToString z <> "".
Proof.
  unfold NumberToString, NilZero.string_of_int, NilZero.string_of_uint.
  destruct (Z.to_int z) as [d|d]; destruct d; simpl;
    (split; [reflexivity || apply string_of_uint_solid | discriminate]).
Qed.

Lemma isWhiteSpace_lowerChar (c : ascii) : isWhiteSpace (lowerChar c) = isWhiteSpace c.
Proof. destruct c as [[] [] [] [] [] [] [] []]; reflexivity. Qed.

Lemma toLowerCase_trimStart (s : string) :
  toLowerCase (trimStart s) = trimStart (toLowerCase s).
Proof.
  induction s as [|c r IH]; simpl; [reflexivity|].
  rewrite isWhiteSpace_lowerChar. destruct (isWhiteSpace c); [exact IH | reflexivity].
Qed.

Lemma toLowerCase_trimEnd (s : string) :
  toLowerCase (trimEnd s) = trimEnd (toLowerCase s).
Proof.
  induction s as [|c r IH]; simpl; [reflexivity|].
  rewrite <- IH, isWhiteSpace_lowerChar.
  destruct (trimEnd r); simpl; [destruct (isWhiteSpace c)|]; reflexivity.
Qed.

Lemma toLowerCase_trim (s : string) : toLowerCase (trim s) = trim (toLowerCase s).
Proof. unfold trim. now rewrite toLowerCase_trimEnd, toLowerCase_trimStart. Qed.

Lemma index_short (row : list value) (k : nat) :
  length row <= k -> index row k = VUndefined.
Proof. intros H. unfold index. now apply nth_overflow. Qed.

(** X20.  The first row is a header whatever it holds: an empty sheet and a
    sheet with one row give an empty roster, and the roster does not depend
    on the first row. *)
Theorem loadUsernames_header_skipped :
  loadUsernames [] = []
  /\ (forall hd : list value, loadUsernames [hd] = [])
  /\ (forall (hd hd' : list value) (rows : sheet),
        loadUsernames (hd :: rows) = loadUsernames (hd' :: rows)).
Proof.
  split; [reflexivity|]. split; [reflexivity|].
  intros hd hd' rows. now rewrite !loadUsernames_cons.
Qed.

(** X21.  A data row with fewer than five cells has no column E, so it is
    left out whatever its first cell holds: the roster is the one the sheet
    gives without that row. *)
Theorem short_row_excluded (hd : list value) (before after : sheet) (row : list value) :
  length row <= 4 ->
  loadUsernames (hd :: before ++ row :: after)
  = loadUsernames (hd :: before ++ after).
Proof.
  intros Hshort. apply includes_false_drop.
  unfold includes, recent_of. rewrite (index_short row 4 Hshort). simpl.
  now rewrite andb_false_r.
Qed.

(** X22.  A data row whose column A or column E holds nothing but white
    space is left out: trimming leaves the empty string. *)
Theorem blank_cell_excludes_row
  (hd : list value) (before after : sheet) (row : list value) (s : string) :
  index row 0 = VStr s \/ index row 4 = VStr s ->
  blank s = true ->
  loadUsernames (hd :: before ++ row :: after)
  = loadUsernames (hd :: before ++ after).
Proof.
  intros Hcell Hblank. apply includes_false_drop.
  assert (Htrim : trim (ToString (or_else (VStr s) (VStr ""))) = "").
  { unfold or_else. destruct (truthy (VStr s)); simpl; [now apply trim_blank|].
    reflexivity. }
  unfold includes, username_of, recent_of.
  destruct Hcell as [H | H]; rewrite H, Htrim; simpl; [reflexivity|].
  now rewrite andb_false_r.
Qed.

(** X23.  The inclusion test reads the flag without regard to case: two
    rows with the same column A whose flags differ in letter case only are
    both kept or both left out. *)
Theorem flag_case_insensitive (row row' : list value) (f f' : string) :
  index row 0 = index row' 0 ->
  index row 4 = VStr f ->
  index row' 4 = VStr f' ->
  toLowerCase f = toLowerCase f' ->
  includes row = includes row'.
Proof.
  intros Hname Hf Hf' Hcase. unfold includes, username_of.
  rewrite (recent_of_string row f Hf), (recent_of_string row' f' Hf').
  rewrite !toLowerCase_trim, Hcase, Hname. reflexivity.
Qed.

(** X24.  A safe integer other than 0 in column A is kept as its decimal
    digits (where 0 is dropped), and the boolean true in column E counts as
    a flag that includes the row. *)
Theorem numeric_identifier_kept (row : list value) (z : Z) :
  index row 0 = VNum z ->
  safe_integer z ->
  z <> 0%Z ->
  index row 4 = VBool true ->
  identifier row = NumberToString z
  /\ identifier row <> ""
  /\ includes row = true.
Proof.
  intros Hname _ Hz Hflag.
  destruct (NumberToString_solid z) as [Hsolid Hne].
  assert (Hid : identifier row = NumberToString z).
  { unfold identifier, or_else. rewrite Hname. simpl truthy.
    apply Z.eqb_neq in Hz. rewrite Hz. simpl. now apply trim_solid. }
  split; [exact Hid|]. split; [now rewrite Hid|].
  apply includes_included. unfold included. rewrite Hid.
  unfold flag. rewrite Hflag. simpl. repeat split; (exact Hne || discriminate).
Qed.

(** ** Batching *)

(** X25.  Every batch but the last holds exactly 100 identifiers; a roster
    of 1 to 100 identifiers is a single batch, the roster itself; an empty
    roster has no batch. *)
Theorem batches_full_but_last (names : list string) :
  (forall k, S k < length (batches names) ->
             length (nth k (batches names) []) = 100)
  /\ (1 <= length names <= 100 -> batches names = [names])
  /\ (names = [] -> batches names = []).
Proof.
  unfold batches. split; [|split].
  - intros k Hk.
    rewrite batches_from_nth by lia. simpl Nat.add. rewrite slice_length.
    rewrite batches_from_length, Nat.sub_0_r in Hk.
    assert (Hq : 100 * ((length names + 99) / 100) <= length names + 99)
      by (apply Nat.Div0.mul_div_le).
    lia.
  - intros Hlen. rewrite (batches_from_step names 0) by lia.
    rewrite (batches_from_done names (0 + 100)) by lia.
    unfold slice. replace (0 + 100 - 0) with 100 by lia.
    change (skipn 0 names) with names. now rewrite firstn_all2 by lia.
  - intros ->. reflexivity.
Qed.

(** ** The further properties on the sample hosts *)

Lemma getToken_failure_keeps_cache_witness :
  tokenCache (snd (@getToken Sample.denying
                     (Sample.loaded Sample.denying Sample.no_files)))
  = mkTokenCache VNull (Num 0).
Proof.
  apply (@getToken_failure_keeps_cache Sample.denying
           (Sample.loaded Sample.denying Sample.no_files) _
           (Error "Failed to fetch Twitch token: json:[object Object]")).
  reflexivity.
Defined.

Lemma getToken_returns_cached_truthy_witness :
  truthy (VStr "t0k3n") = true
  /\ token (tokenCache (snd (@getToken Sample.granting
                               (Sample.loaded Sample.granting Sample.no_files))))
     = VStr "t0k3n".
Proof.
  apply (@getToken_returns_cached_truthy Sample.granting
           (Sample.loaded Sample.granting Sample.no_files)).
  reflexivity.
Defined.

Lemma getToken_at_expiry_exchanges_witness :
  requests (snd (@getToken Sample.granting
                   (set_tokenCache (mkTokenCache (VStr "old") (Num 1700000000000))
                      (Sample.loaded Sample.granting Sample.no_files))))
  = [token_request (VStr "id") (VStr "secret")].
Proof.
  apply (@getToken_at_expiry_exchanges Sample.granting
           (set_tokenCache (mkTokenCache (VStr "old") (Num 1700000000000))
              (Sample.loaded Sample.granting Sample.no_files)));
    [reflexivity|].
  right. right. exists 1700000000000%Z. split; [reflexivity|]. simpl. lia.
Defined.

Lemma getToken_without_lifetime_never_reused_witness :
  exists w',
    @getToken Sample.no_lifetime (Sample.loaded Sample.no_lifetime Sample.no_files)
    = (Ok (VStr "t0k3n"), w')
    /\ tokenCache w' = mkTokenCache (VStr "t0k3n") NaN
    /\ forall w2, tokenCache w2 = tokenCache w' -> @cache_miss Sample.no_lifetime w2.
Proof.
  apply (@getToken_without_lifetime_never_reused Sample.no_lifetime
           (Sample.loaded Sample.no_lifetime Sample.no_files)
           (VStr "id") (VStr "secret") (VObj [("access_token", VStr "t0k3n")]));
    reflexivity.
Defined.

Lemma getToken_short_lifetime_expired_witness :
  exists w',
    @getToken Sample.short_lived (Sample.loaded Sample.short_lived Sample.no_files)
    = (Ok (VStr "t0k3n"), w')
    /\ @cache_miss Sample.short_lived w'.
Proof.
  destruct (@getToken_short_lifetime_expired Sample.short_lived
              (Sample.loaded Sample.short_lived Sample.no_files)
              (VStr "id") (VStr "secret")
              (VObj [("access_token", VStr "t0k3n"); ("expires_in", VNum 30)])
              (VStr "t0k3n") 30%Z) as (w' & Hrun & Hmiss); try reflexivity.
  - lia.
  - exists w'. split; [exact Hrun|]. apply Hmiss; [reflexivity|].
    assert (Hw : w' = snd (@getToken Sample.short_lived
                             (Sample.loaded Sample.short_lived Sample.no_files)))
      by (now rewrite Hrun).
    rewrite Hw. simpl. lia.
Defined.

Lemma getToken_null_CONFIG_throws_witness :
  exists msg w',
    @getToken Sample.granting (set_CONFIG VNull (initial_World Sample.no_files))
    = (Throw (TypeError msg), w')
    /\ requests w' = []
    /\ tokenCache w' = mkTokenCache VNull (Num 0).
Proof.
  apply (@getToken_null_CONFIG_throws Sample.granting
           (set_CONFIG VNull (initial_World Sample.no_files))); reflexivity.
Defined.

Lemma checkLive_no_retry_witness :
  exists k,
    k <= 2
    /\ map method
           (requests (snd (@checkLive Sample.empty_first (Sample.many 150)
                             (Sample.loaded Sample.empty_first Sample.no_files))))
       = ("POST" :: map method
                        (map (@streams_request Sample.empty_first
                                (stream_headers (VStr "id") (VStr "t0k3n")))
                             (firstn k (batches (Sample.many 150)))))
    /\ 1 <= k.
Proof.
  pose (w := Sample.loaded Sample.empty_first Sample.no_files).
  destruct (@checkLive_no_retry Sample.empty_first (Sample.many 150) w
              (snd (@getToken Sample.empty_first w)) (VStr "t0k3n") (VStr "id"))
    as (k & Hk & Hreq & _ & Hthrow); try reflexivity.
  exists k. split; [exact Hk|]. split.
  - fold w. rewrite Hreq. reflexivity.
  - apply (Hthrow (Error "invalid json response body: Unexpected end of JSON input")).
    reflexivity.
Defined.

Lemma checkLive_records_shape_witness :
  Forall record_shape
    [VObj [("username", VStr "dave"); ("title", VStr ""); ("game", VStr "");
           ("started_at", VStr "2024-01-01T00:05:00Z")]].
Proof.
  apply (@checkLive_records_shape Sample.degraded (Sample.many 150)
           (Sample.loaded Sample.degraded Sample.no_files)
           (snd (@checkLive Sample.degraded (Sample.many 150)
                   (Sample.loaded Sample.degraded Sample.no_files)))).
  vm_compute. reflexivity.
Defined.

Lemma checkLive_empty_roster_witness :
  fst (@checkLive Sample.granting [] (Sample.loaded Sample.granting Sample.no_files))
  = Ok []
  /\ map method
         (requests (snd (@checkLive Sample.granting []
                           (Sample.loaded Sample.granting Sample.no_files))))
     = ["POST"].
Proof.
  rewrite (@checkLive_empty_roster Sample.granting
             (Sample.loaded Sample.granting Sample.no_files)
             (snd (@getToken Sample.granting
                     (Sample.loaded Sample.granting Sample.no_files)))
             (VStr "t0k3n") (VStr "id"));
    try reflexivity.
  split; reflexivity.
Defined.

Lemma checkLive_with_cached_token_witness :
  let w := snd (@getToken Sample.granting
                  (Sample.loaded Sample.granting Sample.no_files)) in
  requests (snd (@checkLive Sample.granting (Sample.many 150) w))
  = (requests w
     ++ map (@streams_request Sample.granting
               [("Client-ID", VStr "id"); ("Authorization", VStr "Bearer t0k3n")])
            (batches (Sample.many 150)))%list.
Proof.
  intros w.
  apply (@checkLive_with_cached_token Sample.granting (Sample.many 150) w
           (snd (@checkLive Sample.granting (Sample.many 150) w)) (VStr "id")
           (concat (map records_of [Sample.alice_live; Sample.alice_live])));
    reflexivity.
Defined.

Lemma main_unreadable_sheet_witness :
  exists w',
    @main Sample.sheetless (Sample.loaded Sample.sheetless Sample.no_files)
    = (Ok tt, w')
    /\ console w'
       = [(Err, "Error: ENOENT: no such file or directory, open 'streamers.xlsx'")]
    /\ exitCode w' = Some 1%Z
    /\ requests w' = []
    /\ ticks w' = 0
    /\ files w' = Sample.no_files.
Proof.
  apply (@main_unreadable_sheet Sample.sheetless
           (Sample.loaded Sample.sheetless Sample.no_files)
           (Error "ENOENT: no such file or directory, open 'streamers.xlsx'")).
  reflexivity.
Defined.

Lemma main_empty_roster_witness :
  exists w',
    @main Sample.nobody (Sample.loaded Sample.nobody Sample.no_files) = (Ok tt, w')
    /\ console w' = [(Warn, "No valid streamers found in spreadsheet")]
    /\ exitCode w' = None
    /\ requests w' = []
    /\ tokenCache w' = mkTokenCache VNull (Num 0)
    /\ ticks w' = 0
    /\ files w' = Sample.no_files.
Proof.
  apply (@main_empty_roster Sample.nobody
           (Sample.loaded Sample.nobody Sample.no_files) Sample.header_only);
    reflexivity.
Defined.

Lemma main_writes_only_output_file_witness :
  files (snd (@main Sample.granting
                (Sample.loaded Sample.granting Sample.empty_config_file)))
        "config.json"
  = Some "{}".
Proof.
  rewrite (@main_writes_only_output_file Sample.granting
             (Sample.loaded Sample.granting Sample.empty_config_file) "config.json");
    [reflexivity | discriminate].
Defined.

Lemma main_failure_keeps_files_witness :
  files (snd (@main Sample.denying
                (Sample.loaded Sample.denying Sample.old_snapshot)))
  = Sample.old_snapshot.
Proof.
  apply (@main_failure_keeps_files Sample.denying
           (Sample.loaded Sample.denying Sample.old_snapshot));
    [reflexivity | discriminate | reflexivity].
Defined.

Lemma main_success_witness :
  exists w',
    @main Sample.granting (Sample.loaded Sample.granting Sample.no_files) = (Ok tt, w')
    /\ files w' OUTPUT_FILE
       = Some (@JSON_stringify_indent Sample.granting
                 (snapshot (@toISOString Sample.granting 1700000001000)
                    (records_of Sample.alice_live)))
    /\ exitCode w' = None.
Proof.
  destruct (@main_success Sample.granting
              (Sample.loaded Sample.granting Sample.no_files)
              (snd (@checkLive Sample.granting ["alice"]
                      (Sample.loaded Sample.granting Sample.no_files)))
              Sample.roster_sheet (records_of Sample.alice_live))
    as (w' & Hrun & Hfile & _ & _ & Hexit);
    [reflexivity | discriminate | reflexivity | reflexivity |].
  exists w'. split; [exact Hrun|]. split; [exact Hfile | exact Hexit].
Defined.

Lemma main_write_failure_witness :
  exists w',
    @main Sample.full_disk (Sample.loaded Sample.full_disk Sample.old_snapshot)
    = (Ok tt, w')
    /\ console w'
       = [(Log, "Refreshed Twitch token");
          (Err, "Error: ENOSPC: no space left on device, write")]
    /\ exitCode w' = Some 1%Z
    /\ files w' OUTPUT_FILE = Some "".
Proof.
  destruct (@main_write_failure Sample.full_disk
              (Sample.loaded Sample.full_disk Sample.old_snapshot)
              (snd (@checkLive Sample.full_disk ["alice"]
                      (Sample.loaded Sample.full_disk Sample.old_snapshot)))
              Sample.roster_sheet (records_of Sample.alice_live)
              (Error "ENOSPC: no space left on device, write") (Some ""))
    as (w' & Hrun & Hconsole & Hexit & Hfile & _);
    [reflexivity | discriminate | reflexivity | reflexivity |].
  exists w'. split; [exact Hrun|]. split; [exact Hconsole|].
  split; [exact Hexit | exact Hfile].
Defined.

Lemma short_row_excluded_witness :
  loadUsernames [Sample.row (VStr "username") (VStr "recent");
                 [VStr "erin"; VNull; VNull; VStr "yes"];
                 Sample.row (VStr "alice") (VStr "yes")]
  = ["alice"].
Proof.
  transitivity (loadUsernames [Sample.row (VStr "username") (VStr "recent");
                               Sample.row (VStr "alice") (VStr "yes")]);
    [|reflexivity].
  apply (short_row_excluded (Sample.row (VStr "username") (VStr "recent")) []
           [Sample.row (VStr "alice") (VStr "yes")]
           [VStr "erin"; VNull; VNull; VStr "yes"]).
  simpl. lia.
Defined.

Lemma blank_cell_excludes_row_witness :
  loadUsernames [Sample.row (VStr "username") (VStr "recent");
                 Sample.row (VStr "   ") (VStr "yes");
                 Sample.row (VStr "alice") (VStr "yes")]
  = ["alice"].
Proof.
  transitivity (loadUsernames [Sample.row (VStr "username") (VStr "recent");
                               Sample.row (VStr "alice") (VStr "yes")]);
    [|reflexivity].
  apply (blank_cell_excludes_row (Sample.row (VStr "username") (VStr "recent")) []
           [Sample.row (VStr "alice") (VStr "yes")]
           (Sample.row (VStr "   ") (VStr "yes")) "   ");
    [left; reflexivity | reflexivity].
Defined.

Lemma flag_case_insensitive_witness :
  includes (Sample.row (VStr "bob") (VStr "Yes"))
  = includes (Sample.row (VStr "bob") (VStr "yES")).
Proof.
  apply (flag_case_insensitive _ _ "Yes" "yES"); reflexivity.
Defined.

Lemma numeric_identifier_kept_witness :
  identifier (Sample.row (VNum 42) (VBool true)) = "42"
  /\ identifier (Sample.row (VNum 42) (VBool true)) <> ""
  /\ includes (Sample.row (VNum 42) (VBool true)) = true.
Proof.
  apply (numeric_identifier_kept (Sample.row (VNum 42) (VBool true)) 42%Z);
    [reflexivity | unfold safe_integer; simpl; lia | discriminate | reflexivity].
Defined.

Lemma batches_full_but_last_witness :
  length (nth 1 (batches (Sample.many 250)) []) = 100
  /\ batches (Sample.many 3) = [Sample.many 3].
Proof.
  destruct (batches_full_but_last (Sample.many 250)) as (Hfull & _ & _).
  destruct (batches_full_but_last (Sample.many 3)) as (_ & Hone & _).
  split; [apply Hfull; vm_compute; lia | apply Hone; simpl; lia].
Defined.
